(** * NetScaler LBaaS plugin driver: status reconciliation

    A shallow embedding of
    [neutron_lbaas/services/loadbalancer/drivers/netscaler/netscaler_driver.py]:
    the lifecycle operations of [NetScalerPluginDriver] (create, update and
    delete of vips, pools, members and pool health monitors, and [stats]) and
    the periodic [Collectors] task (vip status refresh and member status
    sweep).

    The driver is stateful code that talks to two collaborators and raises
    and catches exceptions, so it is embedded in a state-and-exception monad
    over a [world] that holds
    - the plugin's status tables (the local store),
    - the module-level list [VIP_IN_PENDING_CREATE],
    - a journal of every collaborator call, in program order. *)

From Stdlib Require Import Ascii.
From stdpp Require Import gmap strings list fin_maps pretty.

Open Scope string_scope.
Open Scope list_scope.

(** ** Constants *)

(** [neutron.plugins.common.constants] *)
Definition PENDING_CREATE : string := "PENDING_CREATE".
Definition ACTIVE : string := "ACTIVE".
Definition ERROR : string := "ERROR".

Definition VIPS_RESOURCE : string := "vips".
Definition VIP_RESOURCE : string := "vip".
Definition POOLS_RESOURCE : string := "pools".
Definition POOL_RESOURCE : string := "pool".
Definition POOLMEMBERS_RESOURCE : string := "members".
Definition POOLMEMBER_RESOURCE : string := "member".
Definition MONITORS_RESOURCE : string := "healthmonitors".
Definition MONITOR_RESOURCE : string := "healthmonitor".
Definition STATS_RESOURCE : string := "stats".
Definition PROV_SEGMT_ID : string := "provider:segmentation_id".
Definition PROV_NET_TYPE : string := "provider:network_type".
Definition RESOURCE_PREFIX : string := "v2.0/lb".
Definition STATUS_PREFIX : string := "oca/v1".
Definition MEMBER_STATUS : string := "memberstatus".
Definition PAGE : string := "page".
Definition SIZE : string := "size".
Definition GLOBAL : string := "GLOBAL".

(** ** Entities

    The plugin hands the driver one dictionary per entity, with a fixed set
    of keys; they are records here.  The driver copies field values into the
    request payload without looking at them (identifiers and the monitor
    type apart), so every field value is carried as text.  A key that the
    code tests for presence is an [option]. *)

Record context := Context { tenant_id : string }.

Record vip := Vip_ {
  vip_id : string;
  vip_tenant_id : string;
  vip_protocol : string;
  vip_address : string;
  vip_protocol_port : string;
  vip_name : string;
  vip_description : string;
  vip_pool_id : string;
  vip_connection_limit : string;
  vip_admin_state_up : string;
  vip_session_persistence : option string;
  vip_subnet_id : string;
  vip_port_id : string
}.

Record pool := Pool_ {
  pool_id : string;
  pool_tenant_id : string;
  pool_vip_id : string;
  pool_protocol : string;
  pool_subnet_id : string;
  pool_name : string;
  pool_description : string;
  pool_lb_method : string;
  pool_admin_state_up : string
}.

Record member := Member_ {
  member_id : string;
  member_tenant_id : string;
  member_address : string;
  member_protocol_port : string;
  member_pool_id : string;
  member_weight : string;
  member_admin_state_up : string
}.

Record health_monitor := HealthMonitor_ {
  hm_id : string;
  hm_tenant_id : string;
  hm_type : string;
  hm_delay : string;
  hm_timeout : string;
  hm_max_retries : string;
  hm_admin_state_up : string;
  hm_http_method : string;
  hm_url_path : string;
  hm_expected_codes : string
}.

(** Request payloads are dictionaries from attribute name to value. *)
Abbreviation attrs := (gmap string string).

(** The core plugin's subnet and network lookups, used for the placement
    metadata of vips and pools. *)
Record network := Network {
  network_provider_type : option string;
  network_provider_segmentation_id : option string
}.

Record core_plugin := CorePlugin {
  get_subnet_network_id : string -> string;
  get_network : string -> network
}.

(** ** Remote documents

    [retrieve_resource] returns a pair of a status code and a result whose
    ['body'] the driver decodes with [jsonutils.loads].  The decoded body is
    one of the documents of the remote API; reading a key of another
    document is a [KeyError]. *)

Record member_entry := MemberEntry {
  entry_id : string;
  entry_status : string;
  entry_status_description : string
}.

Record status_group := StatusGroup { memberstatus : list member_entry }.

Inductive document :=
| VipDoc (status : string)
| StatsDoc (stats : list (string * Z))
| StatusesDoc (statuses : list status_group)
| OtherDoc.

Inductive request :=
| CreateResource (tenant path name : string) (payload : attrs)
| UpdateResource (tenant path name : string) (payload : attrs)
| RemoveResource (tenant path : string)
| RetrieveResource (tenant path : string).

(** Modelled from the spec: the Remote Resource Client ([ncc_client.NSClient],
    not among the sources).  It performs create, update, delete and retrieve
    calls for a resource path, scoped by tenant, and signals a single uniform
    failure when a call does not succeed.  A client is the controller's
    answer to each request: [None] is that failure ([NCCException]),
    [Some (code, body)] a response. *)
Definition NSClient := request -> option (nat * document).

(** ** The world *)

Inductive exn :=
| NCCException
| KeyError (key : string)
| ValueError.

(** The model classes of [loadbalancer_db] that [update_status] is called
    with. *)
Inductive model := Vip | Pool | Member.

Global Instance model_eq_dec : EqDecision model.
Proof. solve_decision. Defined.

Global Instance model_countable : Countable model.
Proof.
  refine (inj_countable'
            (fun m => match m with Vip => 0 | Pool => 1 | Member => 2 end)
            (fun n => match n with 0 => Vip | 1 => Pool | _ => Member end) _).
  by intros [].
Defined.

Global Instance exn_eq_dec : EqDecision exn.
Proof. solve_decision. Defined.

Record db_row := Row {
  row_status : string;
  row_status_description : option string
}.

(** Every call the driver makes to a collaborator that can change something:
    a request to the controller, or a write to the plugin's tables.  Reads
    of the plugins ([get_vips], and the [get_subnet] and [get_network]
    lookups of the core plugin) are not events. *)
Inductive event :=
| Remote (r : request)
| UpdateStatus (m : model) (id status : string) (description : option string)
| UpdatePoolHealthMonitor (id pool_id status description : string)
| DeleteDb (m : model) (id : string)
| DeleteDbPoolHealthMonitor (id pool_id : string).

Record world := World {
  db : gmap (model * string) db_row;
  pool_monitors : gmap (string * string) db_row;
  VIP_IN_PENDING_CREATE : list string;
  journal : list event
}.

Definition set_db (f : gmap (model * string) db_row -> gmap (model * string) db_row)
    (w : world) : world :=
  World (f (db w)) (pool_monitors w) (VIP_IN_PENDING_CREATE w) (journal w).

Definition set_pool_monitors
    (f : gmap (string * string) db_row -> gmap (string * string) db_row)
    (w : world) : world :=
  World (db w) (f (pool_monitors w)) (VIP_IN_PENDING_CREATE w) (journal w).

Definition set_pending (f : list string -> list string) (w : world) : world :=
  World (db w) (pool_monitors w) (f (VIP_IN_PENDING_CREATE w)) (journal w).

Definition journal_add (e : event) (w : world) : world :=
  World (db w) (pool_monitors w) (VIP_IN_PENDING_CREATE w) (journal w ++ [e]).

(** The world of a fresh process over an empty store. *)
Definition initial : world := World ∅ ∅ [] [].

(** ** The monad *)

(** A call returns, raises, or (the sweep's [while True] only) runs on
    without end. *)
Inductive outcome (A : Type) :=
| Returns (a : A)
| Raises (e : exn)
| Diverges.
Arguments Returns {A} a.
Arguments Raises {A} e.
Arguments Diverges {A}.

Definition M (A : Type) : Type := world -> outcome A * world.

Definition ret {A} (a : A) : M A := fun w => (Returns a, w).

Definition raise {A} (e : exn) : M A := fun w => (Raises e, w).

Definition bind {A B} (m : M A) (k : A -> M B) : M B :=
  fun w =>
    match m w with
    | (Returns a, w') => k a w'
    | (Raises e, w') => (Raises e, w')
    | (Diverges, w') => (Diverges, w')
    end.

Declare Scope py_scope.
Delimit Scope py_scope with py.
Notation "x <- m ;; k" := (bind m (fun x => k))
  (at level 100, m at next level, right associativity) : py_scope.
Notation "m ;;; k" := (bind m (fun _ => k))
  (at level 100, right associativity) : py_scope.
Open Scope py_scope.

(** [try: body  except <catches>: handler  else: orelse] *)
Definition try_except_else {A B} (body : M A) (catches : exn -> bool)
    (handler : M B) (orelse : A -> M B) : M B :=
  fun w =>
    match body w with
    | (Returns a, w') => orelse a w'
    | (Raises e, w') => if catches e then handler w' else (Raises e, w')
    | (Diverges, w') => (Diverges, w')
    end.

(** [except ncc_client.NCCException] *)
Definition is_NCCException (e : exn) : bool :=
  match e with NCCException => true | _ => false end.

(** [except Exception] *)
Definition is_Exception (e : exn) : bool := true.

(** [for x in xs: body] *)
Fixpoint for_each {A} (xs : list A) (body : A -> M unit) : M unit :=
  match xs with
  | [] => ret tt
  | x :: xs' => body x ;;; for_each xs' body
  end.

Definition modify (f : world -> world) : M unit := fun w => (Returns tt, f w).

(** ** Collaborators *)

(** The client's four entry points: the request is journalled, then the
    controller's answer is returned or [NCCException] is raised. *)
Definition request_resource (client : NSClient) (r : request) : M (nat * document) :=
  fun w =>
    let w' := journal_add (Remote r) w in
    match client r with
    | Some reply => (Returns reply, w')
    | None => (Raises NCCException, w')
    end.

Definition create_resource (client : NSClient) (tenant path name : string)
    (payload : attrs) : M (nat * document) :=
  request_resource client (CreateResource tenant path name payload).

Definition update_resource (client : NSClient) (tenant path name : string)
    (payload : attrs) : M (nat * document) :=
  request_resource client (UpdateResource tenant path name payload).

Definition remove_resource (client : NSClient) (tenant path : string)
    : M (nat * document) :=
  request_resource client (RemoveResource tenant path).

Definition retrieve_resource (client : NSClient) (tenant path : string)
    : M (nat * document) :=
  request_resource client (RetrieveResource tenant path).

(** Modelled from the spec: the Local State Store (the load-balancer plugin
    and [loadbalancer_db], not among the sources).  It holds each resource's
    current status, and supports a status write keyed by resource id, record
    deletion keyed by resource id, and reading the vips that match a status
    filter.  Pool health monitors are keyed by monitor id and pool id. *)
Definition update_status (m : model) (id status : string)
    (description : option string) : M unit :=
  modify (fun w =>
    journal_add (UpdateStatus m id status description)
      (set_db (insert (m, id) (Row status description)) w)).

Definition update_pool_health_monitor (id pool_id status description : string)
    : M unit :=
  modify (fun w =>
    journal_add (UpdatePoolHealthMonitor id pool_id status description)
      (set_pool_monitors (insert (id, pool_id) (Row status (Some description))) w)).

Definition _delete_db (m : model) (id : string) : M unit :=
  modify (fun w => journal_add (DeleteDb m id) (set_db (delete (m, id)) w)).

Definition _delete_db_vip : string -> M unit := _delete_db Vip.
Definition _delete_db_pool : string -> M unit := _delete_db Pool.
Definition _delete_db_member : string -> M unit := _delete_db Member.

Definition _delete_db_pool_health_monitor (id pool_id : string) : M unit :=
  modify (fun w =>
    journal_add (DeleteDbPoolHealthMonitor id pool_id)
      (set_pool_monitors (delete (id, pool_id)) w)).

(** [get_vips(context, filters={'status': statuses})]: the identifiers of the
    vips whose status is one of [statuses]. *)
Definition vips_with_status (statuses : list string)
    (rows : gmap (model * string) db_row) : list string :=
  omap (fun kv : model * string * db_row =>
          match kv with
          | (Vip, id, row) =>
              if decide (row_status row ∈ statuses) then Some id else None
          | _ => None
          end)
       (map_to_list rows).

Definition get_vips (statuses : list string) : M (list string) :=
  fun w => (Returns (vips_with_status statuses (db w)), w).

(** ** The module-level list [VIP_IN_PENDING_CREATE] *)

(** [list.remove(x)]: drops the first occurrence; [None] when there is none
    (Python raises [ValueError]). *)
Fixpoint list_remove (x : string) (l : list string) : option (list string) :=
  match l with
  | [] => None
  | y :: l' =>
      if decide (y = x) then Some l'
      else match list_remove x l' with
           | Some l'' => Some (y :: l'')
           | None => None
           end
  end.

(** [VIP_IN_PENDING_CREATE.append(id)] *)
Definition pending_append (id : string) : M unit :=
  modify (set_pending (fun l => l ++ [id])).

(** [VIP_IN_PENDING_CREATE.remove(id)] *)
Definition pending_remove (id : string) : M unit :=
  fun w =>
    match list_remove id (VIP_IN_PENDING_CREATE w) with
    | Some l => (Returns tt, set_pending (fun _ => l) w)
    | None => (Raises ValueError, w)
    end.

(** ** Resource paths *)

(** ["%s/%s" % (a, b)] *)
Definition path2 (a b : string) : string := a +:+ "/" +:+ b.
(** ["%s/%s/%s" % (a, b, c)] *)
Definition path3 (a b c : string) : string := a +:+ "/" +:+ b +:+ "/" +:+ c.
(** ["%s/%s/%s/%s" % (a, b, c, d)] *)
Definition path4 (a b c d : string) : string :=
  a +:+ "/" +:+ b +:+ "/" +:+ c +:+ "/" +:+ d.
(** ["%s/%s/%s/%s/%s" % (a, b, c, d, e)] *)
Definition path5 (a b c d e : string) : string :=
  a +:+ "/" +:+ b +:+ "/" +:+ c +:+ "/" +:+ d +:+ "/" +:+ e.

(** ** Payload preparation *)

(** [d1.update(d2)], and [dict(d1.items() + d2.items())]: the entries of
    [d2] win. *)
Definition dict_update (d1 d2 : attrs) : attrs := d2 ∪ d1.

Definition _prepare_vip_for_update (v : vip) : attrs :=
  let updation_attrs : attrs :=
    <["admin_state_up" := vip_admin_state_up v]>
    (<["connection_limit" := vip_connection_limit v]>
    (<["pool_id" := vip_pool_id v]>
    (<["description" := vip_description v]>
    (<["name" := vip_name v]> ∅)))) in
  match vip_session_persistence v with
  | Some sp => <["session_persistence" := sp]> updation_attrs
  | None => updation_attrs
  end.

Definition _prepare_vip_for_creation (v : vip) : attrs :=
  let creation_attrs : attrs :=
    <["protocol_port" := vip_protocol_port v]>
    (<["address" := vip_address v]>
    (<["protocol" := vip_protocol v]>
    (<["tenant_id" := vip_tenant_id v]>
    (<["id" := vip_id v]> ∅)))) in
  let update_attrs := _prepare_vip_for_update v in
  dict_update creation_attrs update_attrs.

Definition _prepare_pool_for_update (p : pool) : attrs :=
  <["admin_state_up" := pool_admin_state_up p]>
  (<["lb_method" := pool_lb_method p]>
  (<["description" := pool_description p]>
  (<["name" := pool_name p]> ∅))).

Definition _prepare_pool_for_creation (p : pool) : attrs :=
  let creation_attrs : attrs :=
    <["subnet_id" := pool_subnet_id p]>
    (<["protocol" := pool_protocol p]>
    (<["vip_id" := pool_vip_id p]>
    (<["tenant_id" := pool_tenant_id p]>
    (<["id" := pool_id p]> ∅)))) in
  let update_attrs := _prepare_pool_for_update p in
  dict_update creation_attrs update_attrs.

Definition _prepare_member_for_update (m : member) : attrs :=
  <["admin_state_up" := member_admin_state_up m]>
  (<["weight" := member_weight m]>
  (<["pool_id" := member_pool_id m]> ∅)).

Definition _prepare_member_for_creation (m : member) : attrs :=
  let creation_attrs : attrs :=
    <["protocol_port" := member_protocol_port m]>
    (<["address" := member_address m]>
    (<["tenant_id" := member_tenant_id m]>
    (<["id" := member_id m]> ∅))) in
  let update_attrs := _prepare_member_for_update m in
  dict_update creation_attrs update_attrs.

Definition _prepare_healthmonitor_for_update (hm : health_monitor) : attrs :=
  let ncc_hm : attrs :=
    <["admin_state_up" := hm_admin_state_up hm]>
    (<["max_retries" := hm_max_retries hm]>
    (<["timeout" := hm_timeout hm]>
    (<["delay" := hm_delay hm]> ∅))) in
  if decide (hm_type hm ∈ ["HTTP"; "HTTPS"]) then
    <["expected_codes" := hm_expected_codes hm]>
    (<["url_path" := hm_url_path hm]>
    (<["http_method" := hm_http_method hm]> ncc_hm))
  else ncc_hm.

Definition _prepare_healthmonitor_for_creation (hm : health_monitor)
    (pool_id : string) : attrs :=
  let creation_attrs : attrs :=
    <["type" := hm_type hm]>
    (<["tenant_id" := hm_tenant_id hm]>
    (<["id" := hm_id hm]> ∅)) in
  let update_attrs := _prepare_healthmonitor_for_update hm in
  dict_update creation_attrs update_attrs.

Definition _get_network_info (core : core_plugin) (subnet_id : string) : attrs :=
  let network_id := get_subnet_network_id core subnet_id in
  let net := get_network core network_id in
  let network_info : attrs :=
    <["subnet_id" := subnet_id]> (<["network_id" := network_id]> ∅) in
  let network_info :=
    match network_provider_type net with
    | Some t => <["network_type" := t]> network_info
    | None => network_info
    end in
  match network_provider_segmentation_id net with
  | Some s => <["segmentation_id" := s]> network_info
  | None => network_info
  end.

Definition _get_vip_network_info (core : core_plugin) (v : vip) : attrs :=
  let network_info := _get_network_info core (vip_subnet_id v) in
  <["port_id" := vip_port_id v]> network_info.

Definition _get_pool_network_info (core : core_plugin) (p : pool) : attrs :=
  _get_network_info core (pool_subnet_id p).

(** [d[key]] *)
Definition getitem (d : attrs) (key : string) : M string :=
  match d !! key with
  | Some v => ret v
  | None => raise (KeyError key)
  end.

(** [result['body']['stats']], [result['vip']['status']] and
    [result['body']['statuses']] on a decoded body. *)
Definition doc_stats (d : document) : M (list (string * Z)) :=
  match d with
  | StatsDoc s => ret s
  | _ => raise (KeyError "stats")
  end.

Definition doc_vip_status (d : document) : M string :=
  match d with
  | VipDoc s => ret s
  | _ => raise (KeyError "vip")
  end.

Definition doc_statuses (d : document) : M (list status_group) :=
  match d with
  | StatusesDoc l => ret l
  | _ => raise (KeyError "statuses")
  end.

(** The driver's configuration, as [__init__] hands it to
    [launch_periodic_task]: whether member status is collected, and the page
    size, which is the text that followed the comma of the setting.  The
    request path carries that text as it is; the sweep reads it as a number
    with [int], at each turn of its loop. *)
Record config := Config {
  enable_status_collection : bool;
  status_collection_pagesize : string
}.

(** ["%s?%s=%s&%s=%s" % ("%s/%s" % (STATUS_PREFIX, MEMBER_STATUS), PAGE, page_no, SIZE, status_collection_pagesize)] *)
Definition member_status_path (page_no : nat) (pagesize : string) : string :=
  path2 STATUS_PREFIX MEMBER_STATUS +:+ "?" +:+ PAGE +:+ "=" +:+ pretty page_no
    +:+ "&" +:+ SIZE +:+ "=" +:+ pagesize.

(** ** NetScalerPluginDriver *)

Section Driver.

Variable core : core_plugin.
Variable client : NSClient.

(** Python's builtin [int] on a text: [Some n] when the text reads as the
    integer [n], [None] when [int] raises [ValueError].  The driver is
    embedded, and its properties are proved, for every such reading. *)
Variable python_int : string -> option Z.

(** [int(text)] *)
Definition int_ (text : string) : M Z :=
  match python_int text with
  | Some n => ret n
  | None => raise ValueError
  end.

Definition create_vip (ctx : context) (v : vip) : M unit :=
  let network_info := _get_vip_network_info core v in
  let ncc_vip := _prepare_vip_for_creation v in
  let ncc_vip := dict_update ncc_vip network_info in
  status <- try_except_else
      (let resource_path := path2 RESOURCE_PREFIX VIPS_RESOURCE in
       create_resource client (tenant_id ctx) resource_path VIP_RESOURCE ncc_vip)
      is_NCCException
      (ret ERROR)
      (fun _ => pending_append (vip_id v) ;;; ret PENDING_CREATE) ;;
  update_status Vip (vip_id v) status None.

Definition update_vip (ctx : context) (old_vip v : vip) : M unit :=
  let update_vip := _prepare_vip_for_update v in
  let resource_path := path3 RESOURCE_PREFIX VIPS_RESOURCE (vip_id v) in
  status <- try_except_else
      (update_resource client (tenant_id ctx) resource_path VIP_RESOURCE update_vip)
      is_NCCException
      (ret ERROR)
      (fun _ => ret ACTIVE) ;;
  update_status Vip (vip_id old_vip) status None.

Definition delete_vip (ctx : context) (v : vip) : M unit :=
  let resource_path := path3 RESOURCE_PREFIX VIPS_RESOURCE (vip_id v) in
  try_except_else
    (remove_resource client (tenant_id ctx) resource_path)
    is_NCCException
    (update_status Vip (vip_id v) ERROR None)
    (fun _ => _delete_db_vip (vip_id v)).

Definition create_pool (ctx : context) (p : pool) : M unit :=
  let network_info := _get_pool_network_info core p in
  let ncc_pool := _prepare_pool_for_creation p in
  let ncc_pool := dict_update ncc_pool network_info in
  status <- try_except_else
      (let resource_path := path2 RESOURCE_PREFIX POOLS_RESOURCE in
       create_resource client (tenant_id ctx) resource_path POOL_RESOURCE ncc_pool)
      is_NCCException
      (ret ERROR)
      (fun _ => ret ACTIVE) ;;
  id <- getitem ncc_pool "id" ;;
  update_status Pool id status None.

Definition update_pool (ctx : context) (old_pool p : pool) : M unit :=
  let ncc_pool := _prepare_pool_for_update p in
  let resource_path := path3 RESOURCE_PREFIX POOLS_RESOURCE (pool_id old_pool) in
  status <- try_except_else
      (update_resource client (tenant_id ctx) resource_path POOL_RESOURCE ncc_pool)
      is_NCCException
      (ret ERROR)
      (fun _ => ret ACTIVE) ;;
  update_status Pool (pool_id old_pool) status None.

Definition delete_pool (ctx : context) (p : pool) : M unit :=
  let resource_path := path3 RESOURCE_PREFIX POOLS_RESOURCE (pool_id p) in
  try_except_else
    (remove_resource client (tenant_id ctx) resource_path)
    is_NCCException
    (update_status Pool (pool_id p) ERROR None)
    (fun _ => _delete_db_pool (pool_id p)).

Definition create_member (ctx : context) (m : member) : M unit :=
  let ncc_member := _prepare_member_for_creation m in
  status <- try_except_else
      (let resource_path := path2 RESOURCE_PREFIX POOLMEMBERS_RESOURCE in
       create_resource client (tenant_id ctx) resource_path POOLMEMBER_RESOURCE
         ncc_member)
      is_NCCException
      (ret ERROR)
      (fun _ => ret ACTIVE) ;;
  update_status Member (member_id m) status None.

Definition update_member (ctx : context) (old_member m : member) : M unit :=
  let ncc_member := _prepare_member_for_update m in
  let resource_path :=
    path3 RESOURCE_PREFIX POOLMEMBERS_RESOURCE (member_id old_member) in
  status <- try_except_else
      (update_resource client (tenant_id ctx) resource_path POOLMEMBER_RESOURCE
         ncc_member)
      is_NCCException
      (ret ERROR)
      (fun _ => ret ACTIVE) ;;
  update_status Member (member_id old_member) status None.

Definition delete_member (ctx : context) (m : member) : M unit :=
  let resource_path := path3 RESOURCE_PREFIX POOLMEMBERS_RESOURCE (member_id m) in
  try_except_else
    (remove_resource client (tenant_id ctx) resource_path)
    is_NCCException
    (update_status Member (member_id m) ERROR None)
    (fun _ => _delete_db_member (member_id m)).

Definition create_pool_health_monitor (ctx : context) (hm : health_monitor)
    (pool_id : string) : M unit :=
  let ncc_hm := _prepare_healthmonitor_for_creation hm pool_id in
  let resource_path :=
    path4 RESOURCE_PREFIX POOLS_RESOURCE pool_id MONITORS_RESOURCE in
  status <- try_except_else
      (create_resource client (tenant_id ctx) resource_path MONITOR_RESOURCE ncc_hm)
      is_NCCException
      (ret ERROR)
      (fun _ => ret ACTIVE) ;;
  update_pool_health_monitor (hm_id hm) pool_id status "".

(** The driver's [update_pool_health_monitor]; the trailing underscore keeps
    it apart from the plugin's operation of the same name, which it calls. *)
Definition update_pool_health_monitor_ (ctx : context)
    (old_health_monitor hm : health_monitor) (pool_id : string) : M unit :=
  let ncc_hm := _prepare_healthmonitor_for_update hm in
  let resource_path :=
    path3 RESOURCE_PREFIX MONITORS_RESOURCE (hm_id old_health_monitor) in
  status <- try_except_else
      (update_resource client (tenant_id ctx) resource_path MONITOR_RESOURCE ncc_hm)
      is_NCCException
      (ret ERROR)
      (fun _ => ret ACTIVE) ;;
  update_pool_health_monitor (hm_id old_health_monitor) pool_id status "".

Definition delete_pool_health_monitor (ctx : context) (hm : health_monitor)
    (pool_id : string) : M unit :=
  let resource_path :=
    path5 RESOURCE_PREFIX POOLS_RESOURCE pool_id MONITORS_RESOURCE (hm_id hm) in
  try_except_else
    (remove_resource client (tenant_id ctx) resource_path)
    is_NCCException
    (update_pool_health_monitor (hm_id hm) pool_id ERROR "")
    (fun _ => _delete_db_pool_health_monitor (hm_id hm) pool_id).

(** [stats] returns [None] when it falls off the end of the [except]
    branch. *)
Definition stats (ctx : context) (pool_id : string)
    : M (option (list (string * Z))) :=
  let resource_path :=
    path4 RESOURCE_PREFIX POOLS_RESOURCE pool_id STATS_RESOURCE in
  try_except_else
    (result <- retrieve_resource client (tenant_id ctx) resource_path ;;
     doc_stats (snd result))
    is_NCCException
    (ret None)
    (fun stats => ret (Some stats)).

(** ** Collectors *)

(** The body of the loop of [_refresh_vip_status]; the [continue] of the
    [except] branch ends the iteration. *)
Definition refresh_vip (vip_id : string) : M unit :=
  let resource_path := path3 RESOURCE_PREFIX VIPS_RESOURCE vip_id in
  try_except_else
    (retrieve_resource client GLOBAL resource_path)
    is_Exception
    (ret tt)
    (fun '(status, result) =>
       vip_status <- doc_vip_status result ;;
       if decide (vip_status ≠ PENDING_CREATE) then
         update_status Vip vip_id vip_status None ;;;
         pending_remove vip_id
       else ret tt).

Definition _refresh_vip_status : M unit :=
  pending_vips <- get_vips [PENDING_CREATE] ;;
  for_each pending_vips refresh_vip.

(** One member entry of one status group of a page. *)
Definition refresh_member (entry : member_entry) : M unit :=
  let member_id := entry_id entry in
  let member_status := entry_status entry in
  let member_status_desc := entry_status_description entry in
  update_status Member member_id member_status (Some member_status_desc).

(** The [while True] loop of [_refresh_all_members_status], from page
    [page_no] on.  [fuel] bounds the number of pages requested; the loop
    that has not returned when it runs out [Diverges]. *)
Fixpoint members_status_loop (status_collection_pagesize : string)
    (fuel page_no : nat) : M unit :=
  match fuel with
  | 0 => fun w => (Diverges, w)
  | S fuel' =>
      let resource_path :=
        member_status_path page_no status_collection_pagesize in
      result <- retrieve_resource client GLOBAL resource_path ;;
      statuses <- doc_statuses (snd result) ;;
      for_each statuses (fun status =>
        let members := memberstatus status in
        for_each members refresh_member) ;;;
      pagesize <- int_ status_collection_pagesize ;;
      if decide (Z.of_nat (length statuses) < pagesize)%Z then ret tt
      else members_status_loop status_collection_pagesize fuel' (page_no + 1)
  end.

Definition _refresh_all_members_status (fuel : nat)
    (status_collection_pagesize : string) : M unit :=
  let page_no := 1 in
  members_status_loop status_collection_pagesize fuel page_no.

Definition execute_periodic_tasks (fuel : nat) (cfg : config) : M unit :=
  _refresh_vip_status ;;;
  if enable_status_collection cfg then
    _refresh_all_members_status fuel (status_collection_pagesize cfg)
  else ret tt.

End Driver.

(** ** The driver's interface as data

    The lifecycle operations the plugin can call, and the steps a running
    process takes: a lifecycle operation, a [stats] query, or a firing of the
    periodic task.  Each step meets the controller in the state it is in at
    that moment, so a step carries its own [NSClient]. *)

Inductive operation :=
| CreateVip (ctx : context) (v : vip)
| UpdateVip (ctx : context) (old_vip v : vip)
| DeleteVip (ctx : context) (v : vip)
| CreatePool (ctx : context) (p : pool)
| UpdatePool (ctx : context) (old_pool p : pool)
| DeletePool (ctx : context) (p : pool)
| CreateMember (ctx : context) (m : member)
| UpdateMember (ctx : context) (old_member m : member)
| DeleteMember (ctx : context) (m : member)
| CreatePoolHealthMonitor (ctx : context) (hm : health_monitor) (pool_id : string)
| UpdatePoolHealthMonitor_ (ctx : context) (old_health_monitor hm : health_monitor)
    (pool_id : string)
| DeletePoolHealthMonitor (ctx : context) (hm : health_monitor) (pool_id : string).

Definition call (core : core_plugin) (client : NSClient) (op : operation) : M unit :=
  match op with
  | CreateVip ctx v => create_vip core client ctx v
  | UpdateVip ctx old_vip v => update_vip client ctx old_vip v
  | DeleteVip ctx v => delete_vip client ctx v
  | CreatePool ctx p => create_pool core client ctx p
  | UpdatePool ctx old_pool p => update_pool client ctx old_pool p
  | DeletePool ctx p => delete_pool client ctx p
  | CreateMember ctx m => create_member client ctx m
  | UpdateMember ctx old_member m => update_member client ctx old_member m
  | DeleteMember ctx m => delete_member client ctx m
  | CreatePoolHealthMonitor ctx hm pool_id =>
      create_pool_health_monitor client ctx hm pool_id
  | UpdatePoolHealthMonitor_ ctx old_hm hm pool_id =>
      update_pool_health_monitor_ client ctx old_hm hm pool_id
  | DeletePoolHealthMonitor ctx hm pool_id =>
      delete_pool_health_monitor client ctx hm pool_id
  end.

Inductive step :=
| Lifecycle (op : operation)
| Stats (ctx : context) (pool_id : string)
| PeriodicTasks (fuel : nat) (cfg : config).

Definition run_step (core : core_plugin) (python_int : string -> option Z)
    (client : NSClient) (s : step) : M unit :=
  match s with
  | Lifecycle op => call core client op
  | Stats ctx pool_id => stats client ctx pool_id ;;; ret tt
  | PeriodicTasks fuel cfg => execute_periodic_tasks client python_int fuel cfg
  end.

(** The world after a sequence of steps.  A step that raises leaves the world
    as it was when the exception left the driver, and the process goes on
    with the next step. *)
Fixpoint run_steps (core : core_plugin) (python_int : string -> option Z)
    (ss : list (NSClient * step)) (w : world) : world :=
  match ss with
  | [] => w
  | (client, s) :: ss' =>
      run_steps core python_int ss' (snd (run_step core python_int client s w))
  end.

(** ** Observations on the journal *)

Definition is_status_write (e : event) : bool :=
  match e with
  | UpdateStatus _ _ _ _ | UpdatePoolHealthMonitor _ _ _ _ => true
  | _ => false
  end.

Definition is_retrieve (e : event) : bool :=
  match e with
  | Remote (RetrieveResource _ _) => true
  | _ => false
  end.


(** How many times [id] occurs in the pending list. *)
Definition occurrences (id : string) (l : list string) : nat :=
  length (filter (fun x => x = id) l).

(** ** Concrete entities and controllers *)

Module Sample.

Definition core : core_plugin :=
  CorePlugin (fun _ => "net-1") (fun _ => Network (Some "vlan") (Some "100")).

Definition ctx : context := Context "tenant-1".

Definition a_vip (id : string) : vip :=
  Vip_ id "tenant-1" "HTTP" "10.0.0.10" "80" "web" "" "p1" "-1" "True" None
    "subnet-1" "port-1".

Definition a_pool (id : string) : pool :=
  Pool_ id "tenant-1" "v1" "HTTP" "subnet-1" "web-pool" "" "ROUND_ROBIN" "True".

Definition a_member (id : string) : member :=
  Member_ id "tenant-1" "10.0.0.21" "8080" "p1" "1" "True".

Definition a_monitor (id : string) : health_monitor :=
  HealthMonitor_ id "tenant-1" "HTTP" "5" "3" "2" "True" "GET" "/" "200".

(** A controller that accepts every request and reports every vip with the
    given status. *)
Definition accepting (vip_status : string) : NSClient :=
  fun r =>
    match r with
    | RetrieveResource _ _ => Some (200, VipDoc vip_status)
    | _ => Some (200, OtherDoc)
    end.

(** A controller that is down. *)
Definition failing : NSClient := fun _ => None.

(** A reading of [int] for the examples: blanks, an optional sign, decimal
    digits and blanks again read as the number the digits write; any other
    text is refused. *)
Definition is_blank (c : Ascii.ascii) : bool :=
  let n := Ascii.nat_of_ascii c in
  ((n =? 32)%nat || ((9 <=? n)%nat && (n <=? 13)%nat))%bool.

Fixpoint lstrip (s : string) : string :=
  match s with
  | EmptyString => EmptyString
  | String c s' => if is_blank c then lstrip s' else s
  end.

Fixpoint all_blank (s : string) : bool :=
  match s with
  | EmptyString => true
  | String c s' => (is_blank c && all_blank s')%bool
  end.

Fixpoint digits (acc : Z) (seen : bool) (s : string) : option Z :=
  match s with
  | EmptyString => if seen then Some acc else None
  | String c s' =>
      let n := Ascii.nat_of_ascii c in
      if ((48 <=? n)%nat && (n <=? 57)%nat)%bool
      then digits (10 * acc + Z.of_nat (n - 48)) true s'
      else if (seen && all_blank s)%bool then Some acc else None
  end.

Definition decimal (s : string) : option Z :=
  match lstrip s with
  | String "-" s' => Z.opp <$> digits 0 false s'
  | String "+" s' => digits 0 false s'
  | s' => digits 0 false s'
  end.

(** A member-status feed: page [n] of the feed is the [n]th element of
    [pages]; a page beyond the feed, or a page listed as [None], fails. *)
Fixpoint feed_page (pagesize : string) (path : string) (page_no : nat)
    (pages : list (option (list status_group))) : option (nat * document) :=
  match pages with
  | [] => None
  | page :: pages' =>
      if decide (path = member_status_path page_no pagesize) then
        match page with
        | Some groups => Some (200, StatusesDoc groups)
        | None => None
        end
      else feed_page pagesize path (S page_no) pages'
  end.

Definition feed (pagesize : string) (pages : list (option (list status_group)))
    : NSClient :=
  fun r =>
    match r with
    | RetrieveResource tenant path => feed_page pagesize path 1 pages
    | _ => None
    end.

(** A controller that fails to retrieve vip [down] and reports every other
    vip with the given status. *)
Definition flaky (down vip_status : string) : NSClient :=
  fun r =>
    match r with
    | RetrieveResource _ path =>
        if decide (path = path3 RESOURCE_PREFIX VIPS_RESOURCE down) then None
        else Some (200, VipDoc vip_status)
    | _ => Some (200, OtherDoc)
    end.

(** The store a restarted process finds: two vips in PENDING_CREATE, and
    nothing in the pending list. *)
Definition restarted : world :=
  World (<[(Vip, "v2") := Row PENDING_CREATE None]>
           (<[(Vip, "v1") := Row PENDING_CREATE None]> ∅))
    ∅ [] [].

Definition g1 : status_group :=
  StatusGroup [MemberEntry "m1" "UP" "ok"; MemberEntry "m2" "DOWN" "probe failed"].
Definition g2 : status_group := StatusGroup [MemberEntry "m3" "UP" "ok"].
Definition g3 : status_group := StatusGroup [MemberEntry "m4" "OUT_OF_SERVICE" ""].

End Sample.

(** The request each lifecycle operation sends to the controller. *)
Definition create_vip_request (core : core_plugin) (ctx : context) (v : vip)
    : request :=
  CreateResource (tenant_id ctx) (path2 RESOURCE_PREFIX VIPS_RESOURCE) VIP_RESOURCE
    (dict_update (_prepare_vip_for_creation v) (_get_vip_network_info core v)).

Definition create_pool_request (core : core_plugin) (ctx : context) (p : pool)
    : request :=
  CreateResource (tenant_id ctx) (path2 RESOURCE_PREFIX POOLS_RESOURCE) POOL_RESOURCE
    (dict_update (_prepare_pool_for_creation p) (_get_pool_network_info core p)).

Definition create_member_request (ctx : context) (m : member) : request :=
  CreateResource (tenant_id ctx) (path2 RESOURCE_PREFIX POOLMEMBERS_RESOURCE)
    POOLMEMBER_RESOURCE (_prepare_member_for_creation m).

Definition create_monitor_request (ctx : context) (hm : health_monitor)
    (pool_id : string) : request :=
  CreateResource (tenant_id ctx)
    (path4 RESOURCE_PREFIX POOLS_RESOURCE pool_id MONITORS_RESOURCE)
    MONITOR_RESOURCE (_prepare_healthmonitor_for_creation hm pool_id).

Definition delete_request (ctx : context) (path : string) : request :=
  RemoveResource (tenant_id ctx) path.

Definition retrieve_vip_request (vip_id : string) : request :=
  RetrieveResource GLOBAL (path3 RESOURCE_PREFIX VIPS_RESOURCE vip_id).

Definition retrieve_page_request (pagesize : string) (page_no : nat) : request :=
  RetrieveResource GLOBAL (member_status_path page_no pagesize).

Definition stats_request (ctx : context) (pool_id : string) : request :=
  RetrieveResource (tenant_id ctx)
    (path4 RESOURCE_PREFIX POOLS_RESOURCE pool_id STATS_RESOURCE).

Definition update_vip_request (ctx : context) (v : vip) : request :=
  UpdateResource (tenant_id ctx) (path3 RESOURCE_PREFIX VIPS_RESOURCE (vip_id v))
    VIP_RESOURCE (_prepare_vip_for_update v).

Definition update_pool_request (ctx : context) (old_pool p : pool) : request :=
  UpdateResource (tenant_id ctx)
    (path3 RESOURCE_PREFIX POOLS_RESOURCE (pool_id old_pool))
    POOL_RESOURCE (_prepare_pool_for_update p).

Definition update_member_request (ctx : context) (old_member m : member)
    : request :=
  UpdateResource (tenant_id ctx)
    (path3 RESOURCE_PREFIX POOLMEMBERS_RESOURCE (member_id old_member))
    POOLMEMBER_RESOURCE (_prepare_member_for_update m).

Definition update_monitor_request (ctx : context)
    (old_health_monitor hm : health_monitor) : request :=
  UpdateResource (tenant_id ctx)
    (path3 RESOURCE_PREFIX MONITORS_RESOURCE (hm_id old_health_monitor))
    MONITOR_RESOURCE (_prepare_healthmonitor_for_update hm).

Definition request_of (core : core_plugin) (op : operation) : request :=
  match op with
  | CreateVip ctx v => create_vip_request core ctx v
  | UpdateVip ctx old_vip v => update_vip_request ctx v
  | DeleteVip ctx v =>
      delete_request ctx (path3 RESOURCE_PREFIX VIPS_RESOURCE (vip_id v))
  | CreatePool ctx p => create_pool_request core ctx p
  | UpdatePool ctx old_pool p => update_pool_request ctx old_pool p
  | DeletePool ctx p =>
      delete_request ctx (path3 RESOURCE_PREFIX POOLS_RESOURCE (pool_id p))
  | CreateMember ctx m => create_member_request ctx m
  | UpdateMember ctx old_member m => update_member_request ctx old_member m
  | DeleteMember ctx m =>
      delete_request ctx (path3 RESOURCE_PREFIX POOLMEMBERS_RESOURCE (member_id m))
  | CreatePoolHealthMonitor ctx hm pool_id => create_monitor_request ctx hm pool_id
  | UpdatePoolHealthMonitor_ ctx old_hm hm pool_id =>
      update_monitor_request ctx old_hm hm
  | DeletePoolHealthMonitor ctx hm pool_id =>
      delete_request ctx
        (path5 RESOURCE_PREFIX POOLS_RESOURCE pool_id MONITORS_RESOURCE (hm_id hm))
  end.

(** The events a call added to the journal, and the status writes among
    them. *)
Definition since (w w' : world) : list event :=
  drop (length (journal w)) (journal w').

Definition status_writes (w w' : world) : list event :=
  List.filter is_status_write (since w w').

Definition retrieve_calls (w w' : world) : list event :=
  List.filter is_retrieve (since w w').

(** The status a status write carries. *)
Definition write_status (e : event) : option string :=
  match e with
  | UpdateStatus _ _ status _ | UpdatePoolHealthMonitor _ _ status _ => Some status
  | _ => None
  end.

(** The controller reports that vip [id] has left PENDING_CREATE. *)
Definition converged (client : NSClient) (id : string) : Prop :=
  exists code s,
    client (retrieve_vip_request id) = Some (code, VipDoc s) /\ s ≠ PENDING_CREATE.

(** The member entries of a page of status groups, in the order the sweep
    visits them, the status write of one entry, and the world after the
    entries were written. *)
Definition page_entries (page : list status_group) : list member_entry :=
  concat (map memberstatus page).

Definition member_write (entry : member_entry) : event :=
  UpdateStatus Member (entry_id entry) (entry_status entry)
    (Some (entry_status_description entry)).

Definition member_row (rows : gmap (model * string) db_row) (entry : member_entry)
    : gmap (model * string) db_row :=
  <[(Member, entry_id entry) :=
      Row (entry_status entry) (Some (entry_status_description entry))]> rows.

Definition swept (entries : list member_entry) (w : world) : world :=
  World (fold_left member_row entries (db w)) (pool_monitors w)
    (VIP_IN_PENDING_CREATE w) (journal w ++ map member_write entries).

(** The world after pages [page_no], [page_no + 1], ... of the feed were
    retrieved and written, one after the other. *)
Fixpoint swept_pages (pagesize : string) (page_no : nat)
    (pages : list (list status_group)) (w : world) : world :=
  match pages with
  | [] => w
  | page :: pages' =>
      swept_pages pagesize (S page_no) pages'
        (swept (page_entries page)
           (journal_add (Remote (retrieve_page_request pagesize page_no)) w))
  end.

(** The events of that: each page's retrieve call, then the writes of its
    entries. *)
Fixpoint page_events (pagesize : string) (page_no : nat)
    (pages : list (list status_group)) : list event :=
  match pages with
  | [] => []
  | page :: pages' =>
      Remote (retrieve_page_request pagesize page_no)
        :: map member_write (page_entries page)
        ++ page_events pagesize (S page_no) pages'
  end.

(** The client serves [pages] as pages [page_no], [page_no + 1], ... of the
    member status feed. *)
Definition serves (client : NSClient) (pagesize : string) (page_no : nat)
    (pages : list (list status_group)) : Prop :=
  forall k page,
    pages !! k = Some page ->
    exists code,
      client (retrieve_page_request pagesize (page_no + k)) =
        Some (code, StatusesDoc page).

(** A page is full when it holds as many status groups as the page size,
    and short when it holds fewer; the page size is the number that [int]
    reads in the configured text, and no page is either when [int] refuses
    the text. *)
Definition full (python_int : string -> option Z) (pagesize : string)
    (page : list status_group) : Prop :=
  match python_int pagesize with
  | Some size => Z.of_nat (length page) = size
  | None => False
  end.

Definition short (python_int : string -> option Z) (pagesize : string)
    (page : list status_group) : Prop :=
  match python_int pagesize with
  | Some size => (Z.of_nat (length page) < size)%Z
  | None => False
  end.

(** Whether the controller accepts a request. *)
Definition accepts (client : NSClient) (r : request) : bool :=
  match client r with Some _ => true | None => false end.

(** ** Configuration

    [__init__] reads [netscaler_status_collection], a text of the form
    ["<enabled>,<page size>"], splits it at the commas and unpacks the two
    parts; unpacking any other number of parts is a [ValueError]. *)

(** [s.split(sep)] for a one-character separator. *)
Fixpoint split (sep : Ascii.ascii) (s : string) : list string :=
  match s with
  | EmptyString => [EmptyString]
  | String c s' =>
      if decide (c = sep) then EmptyString :: split sep s'
      else match split sep s' with
           | part :: parts => String c part :: parts
           | [] => [String c EmptyString]
           end
  end.

(** [s.lower()] on a byte string: the letters A to Z are lowered. *)
Definition lower_ascii (c : Ascii.ascii) : Ascii.ascii :=
  let n := Ascii.nat_of_ascii c in
  if ((65 <=? n)%nat && (n <=? 90)%nat)%bool then Ascii.ascii_of_nat (n + 32) else c.

Fixpoint lower (s : string) : string :=
  match s with
  | EmptyString => EmptyString
  | String c s' => String (lower_ascii c) (lower s')
  end.

(** The pair [(enable_status_collection, status_collection_pagesize)] that
    [__init__] computes from [status_conf] and hands to
    [launch_periodic_task]; the page size is still text at this point. *)
Definition init_status_collection (status_conf : string)
    : outcome (bool * string) :=
  match split ","%char status_conf with
  | [enable_status_collection; status_collection_pagesize] =>
      if decide (lower enable_status_collection = "true")
      then Returns (true, status_collection_pagesize)
      else Returns (false, status_collection_pagesize)
  | _ => Raises ValueError
  end.

(** How many times a character occurs in a text. *)
Fixpoint count_char (c : Ascii.ascii) (s : string) : nat :=
  match s with
  | EmptyString => 0
  | String c' s' => (if decide (c' = c) then 1 else 0) + count_char c s'
  end.

(** ** Observations on operations *)

(** A call to the plugin's tables, as opposed to a request to the
    controller. *)
Definition is_store_event (e : event) : bool :=
  match e with
  | Remote _ => false
  | _ => true
  end.

(** The one row of the plugin's tables that a lifecycle operation writes or
    deletes: a row of [db], or a row of [pool_monitors]. *)
Definition row_of (op : operation) : (model * string) + (string * string) :=
  match op with
  | CreateVip _ v | DeleteVip _ v => inl (Vip, vip_id v)
  | UpdateVip _ old_vip _ => inl (Vip, vip_id old_vip)
  | CreatePool _ p | DeletePool _ p => inl (Pool, pool_id p)
  | UpdatePool _ old_pool _ => inl (Pool, pool_id old_pool)
  | CreateMember _ m | DeleteMember _ m => inl (Member, member_id m)
  | UpdateMember _ old_member _ => inl (Member, member_id old_member)
  | CreatePoolHealthMonitor _ hm pool_id
  | DeletePoolHealthMonitor _ hm pool_id => inr (hm_id hm, pool_id)
  | UpdatePoolHealthMonitor_ _ old_hm _ pool_id => inr (hm_id old_hm, pool_id)
  end.

(** The store holds vip [id] in PENDING_CREATE. *)
Definition store_pending (w : world) (id : string) : Prop :=
  exists row, db w !! (Vip, id) = Some row /\ row_status row = PENDING_CREATE.

(** The controller has nothing new on vip [id]: its retrieve call fails,
    or reports PENDING_CREATE. *)
Definition quiet (client : NSClient) (id : string) : Prop :=
  client (retrieve_vip_request id) = None \/
  exists code, client (retrieve_vip_request id) = Some (code, VipDoc PENDING_CREATE).

(** What the convergence pass over [vips] may add to the journal: the
    retrieve call of one of them, or the write of a status other than
    PENDING_CREATE that the controller reported for one of them. *)
Definition pass_event (client : NSClient) (vips : list string) (e : event)
    : Prop :=
  exists v,
    v ∈ vips /\
    (e = Remote (retrieve_vip_request v) \/
     exists code s,
       client (retrieve_vip_request v) = Some (code, VipDoc s) /\
       s ≠ PENDING_CREATE /\ e = UpdateStatus Vip v s None).

(** A controller whose member status feed, for the page size text "1", has
    one status group on page 1 and a body without statuses on every other
    page. *)
Definition malformed_second_page : NSClient :=
  fun r =>
    match r with
    | RetrieveResource _ path =>
        if decide (path = member_status_path 1 "1")
        then Some (200, StatusesDoc [Sample.g1])
        else Some (200, OtherDoc)
    | _ => None
    end.

(** A controller whose member status feed has a full page of one status
    group under every page number. *)
Definition endless_feed : NSClient :=
  fun _ => Some (200, StatusesDoc [Sample.g1]).

(** * Properties *)

(** ** The client and the monad *)

Lemma request_resource_ok client r reply w :
  client r = Some reply ->
  request_resource client r w = (Returns reply, journal_add (Remote r) w).
Proof. intros H. unfold request_resource. by rewrite H. Qed.

Lemma request_resource_fails client r w :
  client r = None ->
  request_resource client r w = (Raises NCCException, journal_add (Remote r) w).
Proof. intros H. unfold request_resource. by rewrite H. Qed.

Lemma accepts_true client r : accepts client r = true -> exists reply, client r = Some reply.
Proof. unfold accepts. destruct (client r); [eauto | done]. Qed.

Lemma accepts_false client r : accepts client r = false -> client r = None.
Proof. unfold accepts. by destruct (client r). Qed.

(** Unfolds one lifecycle operation down to the controller's answer. *)
Ltac lifecycle :=
  unfold create_resource, update_resource, remove_resource, retrieve_resource,
    try_except_else, bind, request_resource, accepts, ret, update_status,
    update_pool_health_monitor, _delete_db_vip, _delete_db_pool,
    _delete_db_member, _delete_db, _delete_db_pool_health_monitor,
    pending_append, modify; simpl.

(** ** Payloads *)

Lemma network_info_no_id core subnet_id :
  _get_network_info core subnet_id !! "id" = None.
Proof.
  unfold _get_network_info.
  destruct (network_provider_type _), (network_provider_segmentation_id _);
    by rewrite ?lookup_insert_ne, ?lookup_empty by done.
Qed.

Lemma ncc_pool_id core p :
  dict_update (_prepare_pool_for_creation p) (_get_pool_network_info core p)
    !! "id" = Some (pool_id p).
Proof.
  unfold dict_update, _get_pool_network_info.
  rewrite lookup_union_r by apply network_info_no_id.
  unfold _prepare_pool_for_creation, dict_update, _prepare_pool_for_update.
  rewrite lookup_union_r by (by rewrite ?lookup_insert_ne, ?lookup_empty by done).
  by rewrite !lookup_insert_ne, lookup_insert_eq by done.
Qed.

(** ** Creation *)

Lemma create_vip_spec core client ctx v w :
  create_vip core client ctx v w =
    (Returns tt,
     if accepts client (create_vip_request core ctx v) then
       World (<[(Vip, vip_id v) := Row PENDING_CREATE None]> (db w))
         (pool_monitors w)
         (VIP_IN_PENDING_CREATE w ++ [vip_id v])
         (journal w ++ [Remote (create_vip_request core ctx v);
                        UpdateStatus Vip (vip_id v) PENDING_CREATE None])
     else
       World (<[(Vip, vip_id v) := Row ERROR None]> (db w))
         (pool_monitors w)
         (VIP_IN_PENDING_CREATE w)
         (journal w ++ [Remote (create_vip_request core ctx v);
                        UpdateStatus Vip (vip_id v) ERROR None])).
Proof.
  unfold create_vip, create_vip_request. lifecycle.
  destruct (client _); simpl; unfold journal_add, set_db, set_pending; simpl;
    by rewrite <- app_assoc.
Qed.

Lemma create_pool_spec core client ctx p w :
  create_pool core client ctx p w =
    (Returns tt,
     let status := if accepts client (create_pool_request core ctx p)
                   then ACTIVE else ERROR in
     World (<[(Pool, pool_id p) := Row status None]> (db w))
       (pool_monitors w)
       (VIP_IN_PENDING_CREATE w)
       (journal w ++ [Remote (create_pool_request core ctx p);
                      UpdateStatus Pool (pool_id p) status None])).
Proof.
  unfold create_pool, create_pool_request, getitem. rewrite ncc_pool_id.
  lifecycle.
  destruct (client _); simpl; unfold journal_add, set_db; simpl;
    by rewrite <- app_assoc.
Qed.

Lemma create_member_spec client ctx m w :
  create_member client ctx m w =
    (Returns tt,
     let status := if accepts client (create_member_request ctx m)
                   then ACTIVE else ERROR in
     World (<[(Member, member_id m) := Row status None]> (db w))
       (pool_monitors w)
       (VIP_IN_PENDING_CREATE w)
       (journal w ++ [Remote (create_member_request ctx m);
                      UpdateStatus Member (member_id m) status None])).
Proof.
  unfold create_member, create_member_request. lifecycle.
  destruct (client _); simpl; unfold journal_add, set_db; simpl;
    by rewrite <- app_assoc.
Qed.

Lemma create_pool_health_monitor_spec client ctx hm pool_id w :
  create_pool_health_monitor client ctx hm pool_id w =
    (Returns tt,
     let status := if accepts client (create_monitor_request ctx hm pool_id)
                   then ACTIVE else ERROR in
     World (db w)
       (<[(hm_id hm, pool_id) := Row status (Some "")]> (pool_monitors w))
       (VIP_IN_PENDING_CREATE w)
       (journal w ++ [Remote (create_monitor_request ctx hm pool_id);
                      UpdatePoolHealthMonitor (hm_id hm) pool_id status ""])).
Proof.
  unfold create_pool_health_monitor, create_monitor_request. lifecycle.
  destruct (client _); simpl; unfold journal_add, set_pool_monitors; simpl;
    by rewrite <- app_assoc.
Qed.

Lemma since_app w db' monitors' pending' events :
  since w (World db' monitors' pending' (journal w ++ events)) = events.
Proof. unfold since. simpl. apply drop_app_length. Qed.

(** C2.  Every create operation returns after exactly one status write.
    When the controller accepts the create request the status written is
    PENDING_CREATE for a vip, whose id is appended to the pending list, and
    ACTIVE for a pool, a member and a health monitor; when the request fails
    the status written is ERROR and the pending list is left alone. *)
Theorem create_writes_one_status core client ctx w :
  (forall v,
     let w' := snd (create_vip core client ctx v w) in
     fst (create_vip core client ctx v w) = Returns tt /\
     if accepts client (create_vip_request core ctx v) then
       status_writes w w' = [UpdateStatus Vip (vip_id v) PENDING_CREATE None] /\
       db w' !! (Vip, vip_id v) = Some (Row PENDING_CREATE None) /\
       VIP_IN_PENDING_CREATE w' = VIP_IN_PENDING_CREATE w ++ [vip_id v]
     else
       status_writes w w' = [UpdateStatus Vip (vip_id v) ERROR None] /\
       db w' !! (Vip, vip_id v) = Some (Row ERROR None) /\
       VIP_IN_PENDING_CREATE w' = VIP_IN_PENDING_CREATE w) /\
  (forall p,
     let w' := snd (create_pool core client ctx p w) in
     let status := if accepts client (create_pool_request core ctx p)
                   then ACTIVE else ERROR in
     fst (create_pool core client ctx p w) = Returns tt /\
     status_writes w w' = [UpdateStatus Pool (pool_id p) status None] /\
     db w' !! (Pool, pool_id p) = Some (Row status None)) /\
  (forall m,
     let w' := snd (create_member client ctx m w) in
     let status := if accepts client (create_member_request ctx m)
                   then ACTIVE else ERROR in
     fst (create_member client ctx m w) = Returns tt /\
     status_writes w w' = [UpdateStatus Member (member_id m) status None] /\
     db w' !! (Member, member_id m) = Some (Row status None)) /\
  (forall hm pool_id,
     let w' := snd (create_pool_health_monitor client ctx hm pool_id w) in
     let status := if accepts client (create_monitor_request ctx hm pool_id)
                   then ACTIVE else ERROR in
     fst (create_pool_health_monitor client ctx hm pool_id w) = Returns tt /\
     status_writes w w' = [UpdatePoolHealthMonitor (hm_id hm) pool_id status ""] /\
     pool_monitors w' !! (hm_id hm, pool_id) = Some (Row status (Some ""))).
Proof.
  repeat split_and.
  - intros v. rewrite create_vip_spec. simpl.
    split; [done |]. unfold status_writes.
    destruct (accepts _ _); rewrite since_app; simpl;
      by rewrite lookup_insert_eq.
  - intros p. rewrite create_pool_spec. simpl.
    unfold status_writes. rewrite since_app. simpl.
    by rewrite lookup_insert_eq.
  - intros m. rewrite create_member_spec. simpl.
    unfold status_writes. rewrite since_app. simpl.
    by rewrite lookup_insert_eq.
  - intros hm pool_id. rewrite create_pool_health_monitor_spec. simpl.
    unfold status_writes. rewrite since_app. simpl.
    by rewrite lookup_insert_eq.
Qed.

(** ** Update *)

Lemma update_vip_spec client ctx old_vip v w :
  update_vip client ctx old_vip v w =
    (Returns tt,
     let status := if accepts client (update_vip_request ctx v)
                   then ACTIVE else ERROR in
     World (<[(Vip, vip_id old_vip) := Row status None]> (db w))
       (pool_monitors w)
       (VIP_IN_PENDING_CREATE w)
       (journal w ++ [Remote (update_vip_request ctx v);
                      UpdateStatus Vip (vip_id old_vip) status None])).
Proof.
  unfold update_vip, update_vip_request. lifecycle.
  destruct (client _); simpl; unfold journal_add, set_db; simpl;
    by rewrite <- app_assoc.
Qed.

Lemma update_pool_spec client ctx old_pool p w :
  update_pool client ctx old_pool p w =
    (Returns tt,
     let status := if accepts client (update_pool_request ctx old_pool p)
                   then ACTIVE else ERROR in
     World (<[(Pool, pool_id old_pool) := Row status None]> (db w))
       (pool_monitors w)
       (VIP_IN_PENDING_CREATE w)
       (journal w ++ [Remote (update_pool_request ctx old_pool p);
                      UpdateStatus Pool (pool_id old_pool) status None])).
Proof.
  unfold update_pool, update_pool_request. lifecycle.
  destruct (client _); simpl; unfold journal_add, set_db; simpl;
    by rewrite <- app_assoc.
Qed.

Lemma update_member_spec client ctx old_member m w :
  update_member client ctx old_member m w =
    (Returns tt,
     let status := if accepts client (update_member_request ctx old_member m)
                   then ACTIVE else ERROR in
     World (<[(Member, member_id old_member) := Row status None]> (db w))
       (pool_monitors w)
       (VIP_IN_PENDING_CREATE w)
       (journal w ++ [Remote (update_member_request ctx old_member m);
                      UpdateStatus Member (member_id old_member) status None])).
Proof.
  unfold update_member, update_member_request. lifecycle.
  destruct (client _); simpl; unfold journal_add, set_db; simpl;
    by rewrite <- app_assoc.
Qed.

Lemma update_pool_health_monitor_spec client ctx old_hm hm pool_id w :
  update_pool_health_monitor_ client ctx old_hm hm pool_id w =
    (Returns tt,
     let status := if accepts client (update_monitor_request ctx old_hm hm)
                   then ACTIVE else ERROR in
     World (db w)
       (<[(hm_id old_hm, pool_id) := Row status (Some "")]> (pool_monitors w))
       (VIP_IN_PENDING_CREATE w)
       (journal w ++ [Remote (update_monitor_request ctx old_hm hm);
                      UpdatePoolHealthMonitor (hm_id old_hm) pool_id status ""])).
Proof.
  unfold update_pool_health_monitor_, update_monitor_request. lifecycle.
  destruct (client _); simpl; unfold journal_add, set_pool_monitors; simpl;
    by rewrite <- app_assoc.
Qed.

(** Pool, member and health monitor updates address the controller by the
    old entity's id and write the status under it. *)
Lemma update_pool_uses_old_id client ctx old_pool p w :
  journal (snd (update_pool client ctx old_pool p w)) =
    journal w ++
      [Remote (UpdateResource (tenant_id ctx)
                 (path3 RESOURCE_PREFIX POOLS_RESOURCE (pool_id old_pool))
                 POOL_RESOURCE (_prepare_pool_for_update p));
       UpdateStatus Pool (pool_id old_pool)
         (if accepts client (update_pool_request ctx old_pool p)
          then ACTIVE else ERROR) None].
Proof. by rewrite update_pool_spec. Qed.

Lemma update_member_uses_old_id client ctx old_member m w :
  journal (snd (update_member client ctx old_member m w)) =
    journal w ++
      [Remote (UpdateResource (tenant_id ctx)
                 (path3 RESOURCE_PREFIX POOLMEMBERS_RESOURCE (member_id old_member))
                 POOLMEMBER_RESOURCE (_prepare_member_for_update m));
       UpdateStatus Member (member_id old_member)
         (if accepts client (update_member_request ctx old_member m)
          then ACTIVE else ERROR) None].
Proof. by rewrite update_member_spec. Qed.

Lemma update_monitor_uses_old_id client ctx old_hm hm pool_id w :
  journal (snd (update_pool_health_monitor_ client ctx old_hm hm pool_id w)) =
    journal w ++
      [Remote (UpdateResource (tenant_id ctx)
                 (path3 RESOURCE_PREFIX MONITORS_RESOURCE (hm_id old_hm))
                 MONITOR_RESOURCE (_prepare_healthmonitor_for_update hm));
       UpdatePoolHealthMonitor (hm_id old_hm) pool_id
         (if accepts client (update_monitor_request ctx old_hm hm)
          then ACTIVE else ERROR) ""].
Proof. by rewrite update_pool_health_monitor_spec. Qed.

(** The vip update writes the status under the old vip's id, but builds the
    resource path from the id of the new vip. *)
Lemma update_vip_path_and_key client ctx old_vip v w :
  journal (snd (update_vip client ctx old_vip v w)) =
    journal w ++
      [Remote (UpdateResource (tenant_id ctx)
                 (path3 RESOURCE_PREFIX VIPS_RESOURCE (vip_id v))
                 VIP_RESOURCE (_prepare_vip_for_update v));
       UpdateStatus Vip (vip_id old_vip)
         (if accepts client (update_vip_request ctx v)
          then ACTIVE else ERROR) None].
Proof. by rewrite update_vip_spec. Qed.

(** C1.  [update_vip] called with an old vip of id "v-old" and a new vip of
    id "v-new" sends the update to the path of "v-new", the new entity's id,
    and writes the status under "v-old". *)
Theorem update_vip_addresses_new_id :
  journal (snd (update_vip (Sample.accepting ACTIVE) Sample.ctx
                  (Sample.a_vip "v-old") (Sample.a_vip "v-new") initial)) =
    [Remote (UpdateResource "tenant-1" "v2.0/lb/vips/v-new" "vip"
               (_prepare_vip_for_update (Sample.a_vip "v-new")));
     UpdateStatus Vip "v-old" "ACTIVE" None].
Proof. reflexivity. Qed.

(** ** Deletion *)

Lemma delete_vip_spec client ctx v w :
  let r := delete_request ctx (path3 RESOURCE_PREFIX VIPS_RESOURCE (vip_id v)) in
  delete_vip client ctx v w =
    (Returns tt,
     if accepts client r then
       World (delete (Vip, vip_id v) (db w)) (pool_monitors w)
         (VIP_IN_PENDING_CREATE w)
         (journal w ++ [Remote r; DeleteDb Vip (vip_id v)])
     else
       World (<[(Vip, vip_id v) := Row ERROR None]> (db w)) (pool_monitors w)
         (VIP_IN_PENDING_CREATE w)
         (journal w ++ [Remote r; UpdateStatus Vip (vip_id v) ERROR None])).
Proof.
  unfold delete_vip, delete_request. lifecycle.
  destruct (client _); simpl; unfold journal_add, set_db; simpl;
    by rewrite <- app_assoc.
Qed.

Lemma delete_pool_spec client ctx p w :
  let r := delete_request ctx (path3 RESOURCE_PREFIX POOLS_RESOURCE (pool_id p)) in
  delete_pool client ctx p w =
    (Returns tt,
     if accepts client r then
       World (delete (Pool, pool_id p) (db w)) (pool_monitors w)
         (VIP_IN_PENDING_CREATE w)
         (journal w ++ [Remote r; DeleteDb Pool (pool_id p)])
     else
       World (<[(Pool, pool_id p) := Row ERROR None]> (db w)) (pool_monitors w)
         (VIP_IN_PENDING_CREATE w)
         (journal w ++ [Remote r; UpdateStatus Pool (pool_id p) ERROR None])).
Proof.
  unfold delete_pool, delete_request. lifecycle.
  destruct (client _); simpl; unfold journal_add, set_db; simpl;
    by rewrite <- app_assoc.
Qed.

Lemma delete_member_spec client ctx m w :
  let r := delete_request ctx
             (path3 RESOURCE_PREFIX POOLMEMBERS_RESOURCE (member_id m)) in
  delete_member client ctx m w =
    (Returns tt,
     if accepts client r then
       World (delete (Member, member_id m) (db w)) (pool_monitors w)
         (VIP_IN_PENDING_CREATE w)
         (journal w ++ [Remote r; DeleteDb Member (member_id m)])
     else
       World (<[(Member, member_id m) := Row ERROR None]> (db w)) (pool_monitors w)
         (VIP_IN_PENDING_CREATE w)
         (journal w ++ [Remote r; UpdateStatus Member (member_id m) ERROR None])).
Proof.
  unfold delete_member, delete_request. lifecycle.
  destruct (client _); simpl; unfold journal_add, set_db; simpl;
    by rewrite <- app_assoc.
Qed.

Lemma delete_pool_health_monitor_spec client ctx hm pool_id w :
  let r := delete_request ctx
             (path5 RESOURCE_PREFIX POOLS_RESOURCE pool_id MONITORS_RESOURCE
                (hm_id hm)) in
  delete_pool_health_monitor client ctx hm pool_id w =
    (Returns tt,
     if accepts client r then
       World (db w) (delete (hm_id hm, pool_id) (pool_monitors w))
         (VIP_IN_PENDING_CREATE w)
         (journal w ++ [Remote r; DeleteDbPoolHealthMonitor (hm_id hm) pool_id])
     else
       World (db w)
         (<[(hm_id hm, pool_id) := Row ERROR (Some "")]> (pool_monitors w))
         (VIP_IN_PENDING_CREATE w)
         (journal w ++ [Remote r;
                        UpdatePoolHealthMonitor (hm_id hm) pool_id ERROR ""])).
Proof.
  unfold delete_pool_health_monitor, delete_request. lifecycle.
  destruct (client _); simpl; unfold journal_add, set_pool_monitors; simpl;
    by rewrite <- app_assoc.
Qed.

(** C5.  Every delete operation: when the controller accepts the delete
    request the local record is removed from the store and no status is
    written; when the request fails the record is in the store with status
    ERROR. *)
Theorem delete_removes_or_errors client ctx w :
  (forall v,
     let w' := snd (delete_vip client ctx v w) in
     if accepts client
          (delete_request ctx (path3 RESOURCE_PREFIX VIPS_RESOURCE (vip_id v)))
     then db w' !! (Vip, vip_id v) = None /\ status_writes w w' = []
     else exists row, db w' !! (Vip, vip_id v) = Some row /\ row_status row = ERROR) /\
  (forall p,
     let w' := snd (delete_pool client ctx p w) in
     if accepts client
          (delete_request ctx (path3 RESOURCE_PREFIX POOLS_RESOURCE (pool_id p)))
     then db w' !! (Pool, pool_id p) = None /\ status_writes w w' = []
     else exists row, db w' !! (Pool, pool_id p) = Some row /\ row_status row = ERROR) /\
  (forall m,
     let w' := snd (delete_member client ctx m w) in
     if accepts client
          (delete_request ctx
             (path3 RESOURCE_PREFIX POOLMEMBERS_RESOURCE (member_id m)))
     then db w' !! (Member, member_id m) = None /\ status_writes w w' = []
     else exists row,
       db w' !! (Member, member_id m) = Some row /\ row_status row = ERROR) /\
  (forall hm pool_id,
     let w' := snd (delete_pool_health_monitor client ctx hm pool_id w) in
     if accepts client
          (delete_request ctx
             (path5 RESOURCE_PREFIX POOLS_RESOURCE pool_id MONITORS_RESOURCE
                (hm_id hm)))
     then pool_monitors w' !! (hm_id hm, pool_id) = None /\ status_writes w w' = []
     else exists row,
       pool_monitors w' !! (hm_id hm, pool_id) = Some row /\
       row_status row = ERROR).
Proof.
  repeat split_and.
  - intros v. rewrite delete_vip_spec. simpl. unfold status_writes.
    destruct (accepts _ _); rewrite ?since_app; simpl.
    + by rewrite lookup_delete_eq.
    + rewrite lookup_insert_eq. by eexists.
  - intros p. rewrite delete_pool_spec. simpl. unfold status_writes.
    destruct (accepts _ _); rewrite ?since_app; simpl.
    + by rewrite lookup_delete_eq.
    + rewrite lookup_insert_eq. by eexists.
  - intros m. rewrite delete_member_spec. simpl. unfold status_writes.
    destruct (accepts _ _); rewrite ?since_app; simpl.
    + by rewrite lookup_delete_eq.
    + rewrite lookup_insert_eq. by eexists.
  - intros hm pool_id. rewrite delete_pool_health_monitor_spec. simpl.
    unfold status_writes.
    destruct (accepts _ _); rewrite ?since_app; simpl.
    + by rewrite lookup_delete_eq.
    + rewrite lookup_insert_eq. by eexists.
Qed.

(** ** Error propagation *)

Lemma call_returns core client op w :
  fst (call core client op w) = Returns tt.
Proof.
  destruct op; simpl;
    rewrite ?create_vip_spec, ?create_pool_spec, ?create_member_spec,
      ?create_pool_health_monitor_spec, ?update_vip_spec, ?update_pool_spec,
      ?update_member_spec, ?update_pool_health_monitor_spec, ?delete_vip_spec,
      ?delete_pool_spec, ?delete_member_spec, ?delete_pool_health_monitor_spec;
    done.
Qed.

Lemma call_failure_writes_error core client op w :
  accepts client (request_of core op) = false ->
  exists e, status_writes w (snd (call core client op w)) = [e] /\
            write_status e = Some ERROR.
Proof.
  intros Hfail. unfold status_writes.
  destruct op; simpl in *;
    rewrite ?create_vip_spec, ?create_pool_spec, ?create_member_spec,
      ?create_pool_health_monitor_spec, ?update_vip_spec, ?update_pool_spec,
      ?update_member_spec, ?update_pool_health_monitor_spec, ?delete_vip_spec,
      ?delete_pool_spec, ?delete_member_spec, ?delete_pool_health_monitor_spec;
    simpl; rewrite Hfail, since_app; simpl; by eexists.
Qed.

Lemma stats_spec client ctx pool_id w :
  stats client ctx pool_id w =
    (match client (stats_request ctx pool_id) with
     | None => Returns None
     | Some (_, StatsDoc s) => Returns (Some s)
     | Some _ => Raises (KeyError "stats")
     end,
     journal_add (Remote (stats_request ctx pool_id)) w).
Proof.
  unfold stats, stats_request. lifecycle.
  destruct (client _) as [[code []]|]; done.
Qed.

(** C6.  Every lifecycle operation returns normally whatever the controller
    answers, a failed request showing only as the one status write, of
    ERROR; and [stats] returns no result, without raising, when its request
    fails. *)
Theorem lifecycle_never_raises core client w :
  (forall op,
     fst (call core client op w) = Returns tt /\
     (accepts client (request_of core op) = false ->
      exists e, status_writes w (snd (call core client op w)) = [e] /\
                write_status e = Some ERROR)) /\
  (forall ctx pool_id,
     accepts client (stats_request ctx pool_id) = false ->
     fst (stats client ctx pool_id w) = Returns None).
Proof.
  split.
  - intros op. split; [apply call_returns | apply call_failure_writes_error].
  - intros ctx pool_id Hfail. rewrite stats_spec. simpl.
    by rewrite (accepts_false _ _ Hfail).
Qed.

Lemma lifecycle_never_raises_witness :
  accepts Sample.failing
    (request_of Sample.core (DeleteMember Sample.ctx (Sample.a_member "m1"))) = false /\
  accepts Sample.failing (stats_request Sample.ctx "p1") = false /\
  fst (call Sample.core Sample.failing
         (DeleteMember Sample.ctx (Sample.a_member "m1")) initial) = Returns tt /\
  (exists e,
     status_writes initial
       (snd (call Sample.core Sample.failing
               (DeleteMember Sample.ctx (Sample.a_member "m1")) initial)) = [e] /\
     write_status e = Some ERROR) /\
  fst (stats Sample.failing Sample.ctx "p1" initial) = Returns None.
Proof.
  pose proof (lifecycle_never_raises Sample.core Sample.failing initial)
    as [Hops Hstats].
  split; [reflexivity |]. split; [reflexivity |].
  destruct (Hops (DeleteMember Sample.ctx (Sample.a_member "m1"))) as [Hret Herr].
  split; [exact Hret |].
  split; [apply Herr; reflexivity |].
  apply Hstats. reflexivity.
Defined.

(** ** The pending list *)

Lemma list_remove_None x l : list_remove x l = None <-> x ∉ l.
Proof.
  induction l as [|y l IH]; simpl.
  - split; [intros _; apply not_elem_of_nil | done].
  - destruct (decide (y = x)) as [->|Hne].
    + split; [done | intros H; destruct H; apply list_elem_of_here].
    + rewrite not_elem_of_cons. destruct (list_remove x l).
      * split; [done |]. intros [_ H]. by apply IH in H.
      * split; [| done]. intros _. split; [congruence | by apply IH].
Qed.

Lemma list_remove_Some x l l' :
  list_remove x l = Some l' <->
  exists l1 l2, l = l1 ++ x :: l2 /\ (x ∉ l1) /\ l' = l1 ++ l2.
Proof.
  revert l'. induction l as [|y l IH]; intros l'; simpl.
  - split; [done |]. intros (l1 & l2 & H & _). by destruct l1.
  - destruct (decide (y = x)) as [->|Hne].
    + split.
      * intros [= <-]. exists [], l. split; [done |].
        split; [apply not_elem_of_nil | done].
      * intros (l1 & l2 & H & Hnot & ->). destruct l1 as [|z l1].
        { simpl in H. by injection H as ->. }
        simpl in H. injection H as -> _.
        destruct Hnot. apply list_elem_of_here.
    + destruct (list_remove x l) as [l''|] eqn:Hrem.
      * split.
        -- intros [= <-].
           destruct (proj1 (IH l'') eq_refl) as (l1 & l2 & -> & Hnot & ->).
           exists (y :: l1), l2. split; [done |].
           split; [| done]. rewrite not_elem_of_cons. split; [congruence | done].
        -- intros (l1 & l2 & H & Hnot & ->). destruct l1 as [|z l1].
           { simpl in H. injection H as -> _. done. }
           simpl in H. injection H as -> ->.
           apply not_elem_of_cons in Hnot as [_ Hnot].
           assert (Some l'' = Some (l1 ++ l2)) as [= ->]; [| done].
           apply IH. by exists l1, l2.
      * split; [done |]. intros (l1 & l2 & H & Hnot & ->).
        destruct l1 as [|z l1].
        { simpl in H. injection H as -> _. done. }
        simpl in H. injection H as -> ->.
        apply list_remove_None in Hrem. destruct Hrem.
        apply elem_of_app. right. apply list_elem_of_here.
Qed.

Lemma list_remove_is_Some x l : x ∈ l -> is_Some (list_remove x l).
Proof.
  intros Hin. destruct (list_remove x l) eqn:H; [by eexists |].
  apply list_remove_None in H. done.
Qed.

Lemma occurrences_cons id x l :
  occurrences id (x :: l) =
    (if decide (x = id) then 1 else 0) + occurrences id l.
Proof.
  unfold occurrences. rewrite filter_cons. by destruct (decide (x = id)).
Qed.

Lemma occurrences_app id l1 l2 :
  occurrences id (l1 ++ l2) = occurrences id l1 + occurrences id l2.
Proof. unfold occurrences. by rewrite filter_app, length_app. Qed.


Lemma occurrences_pos id l : id ∈ l -> 0 < occurrences id l.
Proof.
  induction 1 as [x l | x y l _ IH]; rewrite occurrences_cons.
  - destruct (decide (x = x)); [lia | done].
  - lia.
Qed.

Lemma list_remove_occurrences x l l' id :
  list_remove x l = Some l' ->
  occurrences id l = (if decide (x = id) then 1 else 0) + occurrences id l'.
Proof.
  intros (l1 & l2 & -> & _ & ->)%list_remove_Some.
  rewrite !occurrences_app, occurrences_cons. lia.
Qed.

(** ** The vip status refresh *)

Lemma refresh_vip_spec client v w :
  let r := retrieve_vip_request v in
  refresh_vip client v w =
    match client r with
    | None => (Returns tt, journal_add (Remote r) w)
    | Some (_, VipDoc s) =>
        if decide (s ≠ PENDING_CREATE) then
          let w' := fun pending =>
            World (<[(Vip, v) := Row s None]> (db w)) (pool_monitors w) pending
              (journal w ++ [Remote r; UpdateStatus Vip v s None]) in
          match list_remove v (VIP_IN_PENDING_CREATE w) with
          | Some l => (Returns tt, w' l)
          | None => (Raises ValueError, w' (VIP_IN_PENDING_CREATE w))
          end
        else (Returns tt, journal_add (Remote r) w)
    | Some _ => (Raises (KeyError "vip"), journal_add (Remote r) w)
    end.
Proof.
  unfold refresh_vip, retrieve_vip_request. lifecycle.
  destruct (client _) as [[code []]|]; simpl; try done.
  destruct (decide (status ≠ PENDING_CREATE)); [| done].
  unfold pending_remove, journal_add, set_db, set_pending. simpl.
  destruct (list_remove _ _); simpl; by rewrite <- app_assoc.
Qed.

(** C3, amended.  One vip of the convergence pass: when the retrieve call
    fails, or reports PENDING_CREATE, the call is all that happened: nothing
    is written and the pending list is as it was.  When it reports another
    status and the vip id is in the pending list, that status is written to
    the store under the vip id and the first occurrence of the id is dropped
    from the pending list, which leaves the id out of the list when it
    occurred there once. *)
Theorem refresh_vip_cases client v w :
  let r := retrieve_vip_request v in
  (client r = None ->
   refresh_vip client v w = (Returns tt, journal_add (Remote r) w)) /\
  (forall code, client r = Some (code, VipDoc PENDING_CREATE) ->
   refresh_vip client v w = (Returns tt, journal_add (Remote r) w)) /\
  (forall code s,
     client r = Some (code, VipDoc s) ->
     s ≠ PENDING_CREATE ->
     v ∈ VIP_IN_PENDING_CREATE w ->
     exists l1 l2,
       VIP_IN_PENDING_CREATE w = l1 ++ v :: l2 /\ (v ∉ l1) /\
       refresh_vip client v w =
         (Returns tt,
          World (<[(Vip, v) := Row s None]> (db w)) (pool_monitors w) (l1 ++ l2)
            (journal w ++ [Remote r; UpdateStatus Vip v s None])) /\
       (occurrences v (VIP_IN_PENDING_CREATE w) = 1 -> v ∉ l1 ++ l2)).
Proof.
  simpl. repeat split_and.
  - intros H. rewrite refresh_vip_spec. simpl. by rewrite H.
  - intros code H. rewrite refresh_vip_spec. simpl. rewrite H.
    by destruct (decide (PENDING_CREATE ≠ PENDING_CREATE)).
  - intros code s H Hs Hin.
    destruct (list_remove_is_Some _ _ Hin) as [l Hl].
    destruct (proj1 (list_remove_Some _ _ _) Hl) as (l1 & l2 & Heq & Hnot & ->).
    exists l1, l2. repeat split_and; [done | done | |].
    + rewrite refresh_vip_spec. simpl. rewrite H, Hl.
      by destruct (decide (s ≠ PENDING_CREATE)).
    + rewrite Heq, occurrences_app, occurrences_cons.
      destruct (decide (v = v)); [| done]. intros Hone.
      rewrite not_elem_of_app. split; [done |].
      intros Hin2. apply occurrences_pos in Hin2. lia.
Qed.

(** ** The member status sweep *)

Lemma for_each_app {A} (l1 l2 : list A) (body : A -> M unit) w :
  for_each (l1 ++ l2) body w =
    (for_each l1 body ;;; for_each l2 body) w.
Proof.
  revert w. induction l1 as [|x l1 IH]; intros w; simpl.
  - done.
  - unfold bind in *. destruct (body x w) as [[[]| |] w1]; done.
Qed.

Lemma swept_nil w : swept [] w = w.
Proof. destruct w. unfold swept. simpl. by rewrite app_nil_r. Qed.

Lemma swept_cons entry entries w :
  swept (entry :: entries) w =
    swept entries
      (journal_add (member_write entry)
         (set_db (insert (Member, entry_id entry)
                    (Row (entry_status entry)
                       (Some (entry_status_description entry)))) w)).
Proof. unfold swept. simpl. by rewrite <- app_assoc. Qed.

Lemma swept_app l1 l2 w : swept (l1 ++ l2) w = swept l2 (swept l1 w).
Proof.
  unfold swept. simpl. by rewrite fold_left_app, map_app, app_assoc.
Qed.

Lemma for_each_refresh_member entries w :
  for_each entries refresh_member w = (Returns tt, swept entries w).
Proof.
  revert w. induction entries as [|entry entries IH]; intros w; simpl.
  - by rewrite swept_nil.
  - unfold bind, refresh_member, update_status, modify. simpl.
    by rewrite IH, swept_cons.
Qed.

Lemma for_each_status_groups page w :
  for_each page
    (fun status => let members := memberstatus status in
                   for_each members refresh_member) w =
    (Returns tt, swept (page_entries page) w).
Proof.
  revert w. induction page as [|g page IH]; intros w; simpl.
  - by rewrite swept_nil.
  - unfold bind. rewrite for_each_refresh_member, IH.
    unfold page_entries. simpl. by rewrite swept_app.
Qed.

(** One turn of the loop, by the controller's answer. *)
Lemma members_status_loop_page client python_int pagesize fuel page_no code page w :
  client (retrieve_page_request pagesize page_no) = Some (code, StatusesDoc page) ->
  members_status_loop client python_int pagesize (S fuel) page_no w =
    let w' := swept (page_entries page)
                (journal_add (Remote (retrieve_page_request pagesize page_no)) w) in
    match python_int pagesize with
    | None => (Raises ValueError, w')
    | Some size =>
        if decide (Z.of_nat (length page) < size)%Z then (Returns tt, w')
        else members_status_loop client python_int pagesize fuel (page_no + 1) w'
    end.
Proof.
  intros H. simpl. unfold bind at 1, retrieve_resource.
  rewrite (request_resource_ok _ _ _ _ H). simpl.
  unfold bind at 1, ret. unfold bind at 1. rewrite for_each_status_groups.
  unfold bind, int_. destruct (python_int pagesize) as [size|]; [| done].
  unfold ret. by destruct (decide _).
Qed.

Lemma members_status_loop_fails client python_int pagesize fuel page_no w :
  client (retrieve_page_request pagesize page_no) = None ->
  members_status_loop client python_int pagesize (S fuel) page_no w =
    (Raises NCCException,
     journal_add (Remote (retrieve_page_request pagesize page_no)) w).
Proof.
  intros H. simpl. unfold bind at 1, retrieve_resource.
  by rewrite (request_resource_fails _ _ _ H).
Qed.

Lemma serves_tail client pagesize page_no page pages :
  serves client pagesize page_no (page :: pages) ->
  (exists code,
     client (retrieve_page_request pagesize page_no) = Some (code, StatusesDoc page)) /\
  serves client pagesize (S page_no) pages.
Proof.
  intros H. split.
  - destruct (H 0 page eq_refl) as [code Hc]. exists code.
    by rewrite Nat.add_0_r in Hc.
  - intros k p Hk. destruct (H (S k) p Hk) as [code Hc]. exists code.
    by rewrite Nat.add_succ_r in Hc.
Qed.

(** Full pages keep the loop going: after them it is at the next page, in
    the world where all of them were written. *)
Lemma members_status_loop_full_pages client python_int pagesize pages :
  forall page_no fuel w,
    serves client pagesize page_no pages ->
    Forall (full python_int pagesize) pages ->
    members_status_loop client python_int pagesize (length pages + fuel) page_no w =
      members_status_loop client python_int pagesize fuel (page_no + length pages)
        (swept_pages pagesize page_no pages w).
Proof.
  induction pages as [|page pages IH]; intros page_no fuel w Hserves Hfull.
  - simpl. by rewrite Nat.add_0_r.
  - apply serves_tail in Hserves as [[code Hc] Htail].
    apply Forall_cons in Hfull as [Hpage Hfull].
    change (length (page :: pages) + fuel) with (S (length pages + fuel)).
    rewrite (members_status_loop_page _ _ _ _ _ _ _ _ Hc). simpl.
    unfold full in Hpage.
    destruct (python_int pagesize) as [size|]; [| done].
    destruct (decide _) as [Hlt|_]; [lia |].
    replace (page_no + 1) with (S page_no) by lia.
    rewrite IH by done. f_equal. lia.
Qed.

Lemma swept_pages_app pagesize page_no pages1 pages2 w :
  swept_pages pagesize page_no (pages1 ++ pages2) w =
    swept_pages pagesize (page_no + length pages1) pages2
      (swept_pages pagesize page_no pages1 w).
Proof.
  revert page_no w. induction pages1 as [|page pages1 IH]; intros page_no w; simpl.
  - by rewrite Nat.add_0_r.
  - rewrite IH. f_equal. lia.
Qed.

Lemma swept_pages_journal pagesize page_no pages w :
  journal (swept_pages pagesize page_no pages w) =
    journal w ++ page_events pagesize page_no pages.
Proof.
  revert page_no w. induction pages as [|page pages IH]; intros page_no w; simpl.
  - by rewrite app_nil_r.
  - rewrite IH. simpl. by rewrite <- !app_assoc.
Qed.

Lemma swept_pages_db pagesize page_no pages w :
  db (swept_pages pagesize page_no pages w) =
    fold_left member_row (concat (map page_entries pages)) (db w).
Proof.
  revert page_no w. induction pages as [|page pages IH]; intros page_no w; simpl.
  - done.
  - rewrite IH. simpl. by rewrite fold_left_app.
Qed.

Lemma swept_pages_pending pagesize page_no pages w :
  VIP_IN_PENDING_CREATE (swept_pages pagesize page_no pages w) =
    VIP_IN_PENDING_CREATE w.
Proof.
  revert page_no w. induction pages as [|page pages IH]; intros page_no w; simpl.
  - done.
  - by rewrite IH.
Qed.

Lemma filter_member_writes entries :
  List.filter is_status_write (map member_write entries) = map member_write entries /\
  List.filter is_retrieve (map member_write entries) = [].
Proof.
  induction entries as [|e entries [IH1 IH2]]; simpl; [done |].
  by rewrite IH1, IH2.
Qed.

Lemma page_events_retrieves pagesize page_no pages :
  List.filter is_retrieve (page_events pagesize page_no pages) =
    map (fun n => Remote (retrieve_page_request pagesize n))
      (seq page_no (length pages)).
Proof.
  revert page_no. induction pages as [|page pages IH]; intros page_no; simpl.
  - done.
  - rewrite List.filter_app, (proj2 (filter_member_writes _)), IH. done.
Qed.

Lemma page_events_writes pagesize page_no pages :
  List.filter is_status_write (page_events pagesize page_no pages) =
    map member_write (concat (map page_entries pages)).
Proof.
  revert page_no. induction pages as [|page pages IH]; intros page_no; simpl.
  - done.
  - rewrite List.filter_app, (proj1 (filter_member_writes _)), IH.
    by rewrite map_app.
Qed.

Lemma since_swept_pages pagesize page_no pages w :
  since w (swept_pages pagesize page_no pages w) =
    page_events pagesize page_no pages.
Proof. unfold since. rewrite swept_pages_journal. apply drop_app_length. Qed.

(** The sweep over a feed of full pages closed by a short page. *)
Lemma sweep_spec client python_int pagesize pages last fuel w :
  serves client pagesize 1 (pages ++ [last]) ->
  Forall (full python_int pagesize) pages ->
  short python_int pagesize last ->
  length pages < fuel ->
  _refresh_all_members_status client python_int fuel pagesize w =
    (Returns tt, swept_pages pagesize 1 (pages ++ [last]) w).
Proof.
  intros Hserves Hfull Hshort Hfuel. unfold _refresh_all_members_status.
  assert (serves client pagesize 1 pages) as Hpages.
  { intros k page Hk. apply Hserves. by apply lookup_app_l_Some. }
  destruct (Hserves (length pages) last) as [code Hlast].
  { by rewrite lookup_app_r, Nat.sub_diag by lia. }
  replace fuel with (length pages + S (fuel - S (length pages))) by lia.
  rewrite members_status_loop_full_pages by done.
  rewrite (members_status_loop_page _ _ _ _ _ _ _ _ Hlast). simpl.
  unfold short in Hshort.
  destruct (python_int pagesize) as [size|]; [| done].
  destruct (decide _) as [_|Hge]; [| lia].
  by rewrite swept_pages_app.
Qed.

(** C4.  Over a feed of N pages whose first N-1 pages hold exactly the page
    size of status groups and whose last page holds fewer (the page size
    being the number that [int] reads in the configured text), the sweep
    (given room for N turns of its loop) returns after exactly N retrieve
    calls, for pages 1, 2, ..., N in this order and each with the configured
    text as its size, and after writing the status and status description of
    every member entry of every group of every page under the member's id,
    whatever the store held before. *)
Theorem sweep_visits_every_page client python_int pagesize pages last fuel w :
  serves client pagesize 1 (pages ++ [last]) ->
  Forall (full python_int pagesize) pages ->
  short python_int pagesize last ->
  length pages < fuel ->
  let w' := snd (_refresh_all_members_status client python_int fuel pagesize w) in
  let entries := concat (map page_entries (pages ++ [last])) in
  fst (_refresh_all_members_status client python_int fuel pagesize w) = Returns tt /\
  retrieve_calls w w' =
    map (fun n => Remote (retrieve_page_request pagesize n))
      (seq 1 (length (pages ++ [last]))) /\
  status_writes w w' = map member_write entries /\
  db w' = fold_left member_row entries (db w) /\
  (forall entry, entry ∈ entries -> is_Some (db w' !! (Member, entry_id entry))).
Proof.
  intros Hserves Hfull Hshort Hfuel.
  rewrite (sweep_spec _ _ _ _ _ _ _ Hserves Hfull Hshort Hfuel). simpl.
  unfold retrieve_calls, status_writes. rewrite since_swept_pages.
  rewrite page_events_retrieves, page_events_writes, swept_pages_db.
  repeat split_and; try done.
  generalize (db w).
  induction (concat (map page_entries (pages ++ [last]))) as [|e es IH];
    intros rows entry Hin.
  - by apply elem_of_nil in Hin.
  - simpl. apply elem_of_cons in Hin as [->|Hin]; [| by apply IH].
    clear IH. assert (is_Some (member_row rows e !! (Member, entry_id e))) as H.
    { unfold member_row. rewrite lookup_insert_eq. by eexists. }
    revert H. generalize (member_row rows e).
    induction es as [|e' es IH]; intros rows' H; simpl; [done |].
    apply IH. unfold member_row.
    destruct (decide ((Member, entry_id e') = (Member, entry_id e))) as [->|Hne].
    + rewrite lookup_insert_eq. by eexists.
    + by rewrite lookup_insert_ne.
Qed.

Lemma sweep_visits_every_page_witness :
  let client := Sample.feed " 2" [Some [Sample.g1; Sample.g2]; Some [Sample.g3]] in
  let w' :=
    snd (_refresh_all_members_status client Sample.decimal 5 " 2" initial) in
  let entries :=
    concat (map page_entries ([[Sample.g1; Sample.g2]] ++ [[Sample.g3]])) in
  fst (_refresh_all_members_status client Sample.decimal 5 " 2" initial)
    = Returns tt /\
  retrieve_calls initial w' =
    map (fun n => Remote (retrieve_page_request " 2" n))
      (seq 1 (length ([[Sample.g1; Sample.g2]] ++ [[Sample.g3]]))) /\
  status_writes initial w' = map member_write entries /\
  db w' = fold_left member_row entries (db initial) /\
  (forall entry, entry ∈ entries -> is_Some (db w' !! (Member, entry_id entry))).
Proof.
  apply (sweep_visits_every_page
           (Sample.feed " 2" [Some [Sample.g1; Sample.g2]; Some [Sample.g3]])
           Sample.decimal " 2" [[Sample.g1; Sample.g2]] [Sample.g3] 5 initial).
  - intros k page Hk. destruct k as [|[|k]]; simpl in Hk; [| | done];
      injection Hk as <-; exists 200; reflexivity.
  - by repeat constructor.
  - by vm_compute.
  - simpl. lia.
Defined.

(** The sweep whose next page fails after a run of full pages: the failure
    leaves the sweep, with the full pages written and nothing after. *)
Lemma sweep_fails_at client python_int pagesize pages fuel w :
  serves client pagesize 1 pages ->
  Forall (full python_int pagesize) pages ->
  client (retrieve_page_request pagesize (1 + length pages)) = None ->
  length pages < fuel ->
  _refresh_all_members_status client python_int fuel pagesize w =
    (Raises NCCException,
     journal_add (Remote (retrieve_page_request pagesize (1 + length pages)))
       (swept_pages pagesize 1 pages w)).
Proof.
  intros Hserves Hfull Hfail Hfuel. unfold _refresh_all_members_status.
  replace fuel with (length pages + S (fuel - S (length pages))) by lia.
  rewrite members_status_loop_full_pages by done.
  by rewrite (members_status_loop_fails _ _ _ _ _ _ Hfail).
Qed.

(** ** The convergence pass, vip by vip *)

Lemma for_each_skip client vips1 v vips2 w w1 :
  for_each vips1 (refresh_vip client) w = (Returns tt, w1) ->
  client (retrieve_vip_request v) = None ->
  for_each (vips1 ++ v :: vips2) (refresh_vip client) w =
    for_each vips2 (refresh_vip client)
      (journal_add (Remote (retrieve_vip_request v)) w1).
Proof.
  intros H1 Hfail. rewrite for_each_app. unfold bind at 1. rewrite H1. simpl.
  unfold bind. rewrite refresh_vip_spec. simpl. by rewrite Hfail.
Qed.

(** C7, amended.  In the convergence pass a failed retrieve call for one vip
    is skipped: the pass goes on with the vips after it, from a world in
    which only the call was journalled.  In the member status sweep a failed
    retrieve call for a page leaves the sweep as [NCCException]: the full
    pages before it stay written, and no later page is requested. *)
Theorem failed_retrieve_in_a_pass client python_int :
  (forall vips1 v vips2 w w1,
     vips_with_status [PENDING_CREATE] (db w) = vips1 ++ v :: vips2 ->
     for_each vips1 (refresh_vip client) w = (Returns tt, w1) ->
     client (retrieve_vip_request v) = None ->
     _refresh_vip_status client w =
       for_each vips2 (refresh_vip client)
         (journal_add (Remote (retrieve_vip_request v)) w1)) /\
  (forall pagesize pages fuel w,
     serves client pagesize 1 pages ->
     Forall (full python_int pagesize) pages ->
     client (retrieve_page_request pagesize (1 + length pages)) = None ->
     length pages < fuel ->
     _refresh_all_members_status client python_int fuel pagesize w =
       (Raises NCCException,
        journal_add (Remote (retrieve_page_request pagesize (1 + length pages)))
          (swept_pages pagesize 1 pages w))).
Proof.
  split.
  - intros vips1 v vips2 w w1 Hvips H1 Hfail.
    unfold _refresh_vip_status, bind, get_vips. rewrite Hvips.
    by apply for_each_skip.
  - intros. by apply sweep_fails_at.
Qed.

(** C7, as stated, fails on the sweep: with one status group to a page, page
    1 served, page 2 failing and page 3 holding member "m4", the sweep
    raises after two retrieve calls, and "m4" is never written. *)
Lemma sweep_aborts_on_failed_page :
  let client :=
    Sample.feed "1" [Some [Sample.g1]; None; Some [Sample.g3]] in
  let w' :=
    snd (_refresh_all_members_status client Sample.decimal 10 "1" initial) in
  client (retrieve_page_request "1" 3) = Some (200, StatusesDoc [Sample.g3]) /\
  Sample.g3 = StatusGroup [MemberEntry "m4" "OUT_OF_SERVICE" ""] /\
  fst (_refresh_all_members_status client Sample.decimal 10 "1" initial)
    = Raises NCCException /\
  retrieve_calls initial w' =
    [Remote (retrieve_page_request "1" 1); Remote (retrieve_page_request "1" 2)] /\
  db w' !! (Member, "m4") = None.
Proof. simpl. repeat split_and; by vm_compute. Qed.

Lemma failed_retrieve_in_a_pass_witness :
  let w :=
    run_steps Sample.core Sample.decimal
      [(Sample.accepting PENDING_CREATE,
        Lifecycle (CreateVip Sample.ctx (Sample.a_vip "v1")));
       (Sample.accepting PENDING_CREATE,
        Lifecycle (CreateVip Sample.ctx (Sample.a_vip "v2")))] initial in
  let feed := Sample.feed "1" [Some [Sample.g1]; None; Some [Sample.g3]] in
  _refresh_vip_status (Sample.flaky "v1" ACTIVE) w =
    for_each ["v2"] (refresh_vip (Sample.flaky "v1" ACTIVE))
      (journal_add (Remote (retrieve_vip_request "v1")) w) /\
  _refresh_all_members_status feed Sample.decimal 10 "1" initial =
    (Raises NCCException,
     journal_add (Remote (retrieve_page_request "1" (1 + length [[Sample.g1]])))
       (swept_pages "1" 1 [[Sample.g1]] initial)).
Proof.
  split.
  - apply (proj1 (failed_retrieve_in_a_pass (Sample.flaky "v1" ACTIVE)
                    Sample.decimal)
             [] "v1" ["v2"]); by vm_compute.
  - apply (proj2 (failed_retrieve_in_a_pass
                    (Sample.feed "1" [Some [Sample.g1]; None; Some [Sample.g3]])
                    Sample.decimal)
             "1" [[Sample.g1]] 10 initial).
    + intros k page Hk. destruct k as [|k]; simpl in Hk; [| done].
      injection Hk as <-. exists 200. reflexivity.
    + by repeat constructor.
    + reflexivity.
    + simpl. lia.
Defined.

Lemma elem_of_vips_with_status statuses rows id :
  id ∈ vips_with_status statuses rows <->
  exists row, rows !! (Vip, id) = Some row /\ row_status row ∈ statuses.
Proof.
  unfold vips_with_status. rewrite list_elem_of_omap. split.
  - intros ([[m id'] row] & Hin & Hf). apply elem_of_map_to_list in Hin.
    destruct m; try done.
    destruct (decide (row_status row ∈ statuses)); [| done].
    injection Hf as ->. by exists row.
  - intros (row & Hrow & Hst). exists (Vip, id, row).
    split; [by apply elem_of_map_to_list |].
    by destruct (decide (row_status row ∈ statuses)).
Qed.

Lemma vips_with_status_NoDup statuses rows :
  NoDup (vips_with_status statuses rows).
Proof.
  unfold vips_with_status.
  pose proof (NoDup_fst_map_to_list rows) as Hnd.
  induction (map_to_list rows) as [|[[m id] row] l IH]; simpl.
  - constructor.
  - rewrite fmap_cons in Hnd. apply NoDup_cons in Hnd as [Hnot Hnd].
    destruct m; try by apply IH.
    destruct (decide (row_status row ∈ statuses)); [| by apply IH].
    apply NoDup_cons. split; [| by apply IH].
    rewrite list_elem_of_omap. intros ([[m' id'] row'] & Hin & Hf).
    destruct m'; try done.
    destruct (decide (row_status row' ∈ statuses)); [| done].
    injection Hf as ->. apply Hnot. simpl.
    apply list_elem_of_fmap. by exists (Vip, id, row').
Qed.

(** What one vip of the pass does to the number of occurrences of [id] in
    the pending list. *)
Lemma refresh_vip_occurrences client v w id :
  let before := occurrences id (VIP_IN_PENDING_CREATE w) in
  let after :=
    occurrences id (VIP_IN_PENDING_CREATE (snd (refresh_vip client v w))) in
  (id ≠ v -> after = before) /\
  after <= before <= after + 1 /\
  (after < before -> id = v /\ converged client v).
Proof.
  rewrite refresh_vip_spec. simpl.
  destruct (client (retrieve_vip_request v)) as [[code doc]|] eqn:Hc;
    [| simpl; lia].
  destruct doc as [s| | |]; try (simpl; lia).
  destruct (decide (s ≠ PENDING_CREATE)) as [Hs|]; [| simpl; lia].
  destruct (list_remove v (VIP_IN_PENDING_CREATE w)) as [l|] eqn:Hl;
    [| simpl; lia].
  simpl. rewrite (list_remove_occurrences _ _ _ id Hl).
  destruct (decide (v = id)) as [->|Hne].
  - repeat split_and; try lia; [done |].
    intros _. split; [done |]. by exists code, s.
  - repeat split_and; lia.
Qed.

Lemma refresh_loop_occurrences client vips :
  forall w id,
    NoDup vips ->
    let before := occurrences id (VIP_IN_PENDING_CREATE w) in
    let after :=
      occurrences id
        (VIP_IN_PENDING_CREATE (snd (for_each vips (refresh_vip client) w))) in
    (id ∉ vips -> after = before) /\
    after <= before <= after + 1 /\
    (after < before -> id ∈ vips /\ converged client id).
Proof.
  induction vips as [|v vips IH]; intros w id Hnd; simpl.
  - repeat split_and; try lia.
  - apply NoDup_cons in Hnd as [Hv Hnd].
    pose proof (refresh_vip_occurrences client v w id) as (Hother & Hle & Hlt).
    unfold bind.
    destruct (refresh_vip client v w) as [[[]|e|] w1] eqn:Hstep; simpl in *.
    + specialize (IH w1 id Hnd) as (IHout & IHle & IHlt). simpl in *.
      rewrite not_elem_of_cons, elem_of_cons.
      repeat split_and.
      * intros [Hne Hnot]. rewrite IHout by done. by apply Hother.
      * destruct (decide (id = v)) as [->|Hne].
        -- rewrite IHout by done. lia.
        -- rewrite Hother in * by done. lia.
      * destruct (decide (id = v)) as [->|Hne].
        -- rewrite IHout by done. lia.
        -- rewrite Hother in * by done. lia.
      * intros Hdrop. destruct (decide (id = v)) as [->|Hne].
        -- rewrite IHout in Hdrop by done. destruct (Hlt Hdrop) as [_ Hc].
           split; [by left | done].
        -- rewrite Hother in * by done. destruct (IHlt Hdrop) as [Hin Hc].
           split; [by right | done].
    + rewrite not_elem_of_cons, elem_of_cons. repeat split_and; try lia.
      * intros [Hne _]. by apply Hother.
      * intros Hdrop. destruct (Hlt Hdrop) as [-> Hc]. split; [by left | done].
    + rewrite not_elem_of_cons, elem_of_cons. repeat split_and; try lia.
      * intros [Hne _]. by apply Hother.
      * intros Hdrop. destruct (Hlt Hdrop) as [-> Hc]. split; [by left | done].
Qed.




(** C3, as stated, fails on a vip id that is in the pending list twice: two
    accepted [create_vip] calls for "v1" put it there twice, and after the
    pass in which the controller reports ACTIVE the store shows ACTIVE while
    "v1" is still in the pending list. *)
Lemma refresh_keeps_second_occurrence :
  let create :=
    (Sample.accepting PENDING_CREATE,
     Lifecycle (CreateVip Sample.ctx (Sample.a_vip "v1"))) in
  let w := run_steps Sample.core Sample.decimal [create; create] initial in
  let w' := snd (_refresh_vip_status (Sample.accepting ACTIVE) w) in
  vips_with_status [PENDING_CREATE] (db w) = ["v1"] /\
  Sample.accepting ACTIVE (retrieve_vip_request "v1") = Some (200, VipDoc ACTIVE) /\
  ACTIVE ≠ PENDING_CREATE /\
  fst (_refresh_vip_status (Sample.accepting ACTIVE) w) = Returns tt /\
  db w' !! (Vip, "v1") = Some (Row ACTIVE None) /\
  VIP_IN_PENDING_CREATE w' = ["v1"].
Proof. simpl. repeat split_and; by vm_compute. Qed.

Lemma refresh_vip_cases_witness :
  let w :=
    run_steps Sample.core Sample.decimal
      [(Sample.accepting PENDING_CREATE,
        Lifecycle (CreateVip Sample.ctx (Sample.a_vip "v1")))] initial in
  let r := retrieve_vip_request "v1" in
  refresh_vip Sample.failing "v1" w = (Returns tt, journal_add (Remote r) w) /\
  refresh_vip (Sample.accepting PENDING_CREATE) "v1" w =
    (Returns tt, journal_add (Remote r) w) /\
  exists l1 l2,
    VIP_IN_PENDING_CREATE w = l1 ++ "v1" :: l2 /\ ("v1" ∉ l1) /\
    refresh_vip (Sample.accepting ACTIVE) "v1" w =
      (Returns tt,
       World (<[(Vip, "v1") := Row ACTIVE None]> (db w)) (pool_monitors w)
         (l1 ++ l2) (journal w ++ [Remote r; UpdateStatus Vip "v1" ACTIVE None])) /\
    (occurrences "v1" (VIP_IN_PENDING_CREATE w) = 1 -> "v1" ∉ l1 ++ l2).
Proof.
  set (w := run_steps Sample.core Sample.decimal
      [(Sample.accepting PENDING_CREATE,
        Lifecycle (CreateVip Sample.ctx (Sample.a_vip "v1")))] initial).
  simpl. split; [| split].
  - apply (proj1 (refresh_vip_cases Sample.failing "v1" w)). reflexivity.
  - apply (proj1 (proj2 (refresh_vip_cases (Sample.accepting PENDING_CREATE)
                           "v1" w)) 200).
    reflexivity.
  - apply (proj2 (proj2 (refresh_vip_cases (Sample.accepting ACTIVE) "v1" w))
             200 ACTIVE).
    + reflexivity.
    + done.
    + apply list_elem_of_here.
Defined.

(** ** The periodic task *)

Lemma members_status_loop_turn client python_int pagesize fuel page_no w :
  let r := retrieve_page_request pagesize page_no in
  members_status_loop client python_int pagesize (S fuel) page_no w =
    match client r with
    | None => (Raises NCCException, journal_add (Remote r) w)
    | Some (_, StatusesDoc page) =>
        let w' := swept (page_entries page) (journal_add (Remote r) w) in
        match python_int pagesize with
        | None => (Raises ValueError, w')
        | Some size =>
            if decide (Z.of_nat (length page) < size)%Z then (Returns tt, w')
            else members_status_loop client python_int pagesize fuel
                   (page_no + 1) w'
        end
    | Some _ => (Raises (KeyError "statuses"), journal_add (Remote r) w)
    end.
Proof.
  cbv zeta.
  destruct (client (retrieve_page_request pagesize page_no))
    as [[code doc]|] eqn:Hc.
  - destruct doc as [s|st|page|];
      try (cbn [members_status_loop]; unfold bind at 1, retrieve_resource;
           rewrite (request_resource_ok _ _ _ _ Hc); done).
    exact (members_status_loop_page client python_int pagesize fuel page_no
             code page w Hc).
  - exact (members_status_loop_fails client python_int pagesize fuel page_no w
             Hc).
Qed.

Lemma members_status_loop_frame client python_int pagesize fuel :
  forall page_no w,
    let w' := snd (members_status_loop client python_int pagesize fuel page_no w) in
    VIP_IN_PENDING_CREATE w' = VIP_IN_PENDING_CREATE w /\
    journal w `prefix_of` journal w'.
Proof.
  induction fuel as [|fuel IH]; intros page_no w; [done |].
  rewrite members_status_loop_turn. simpl.
  destruct (client _) as [[code doc]|]; [| by split; [| apply prefix_app_r]].
  destruct doc as [s|st|page|]; try by split; [| apply prefix_app_r].
  destruct (python_int pagesize) as [size|];
    [| simpl; split; [done |]; rewrite <- app_assoc; by apply prefix_app_r].
  destruct (decide _).
  - simpl. split; [done |]. rewrite <- app_assoc. by apply prefix_app_r.
  - destruct (IH (page_no + 1)
                (swept (page_entries page)
                   (journal_add
                      (Remote (retrieve_page_request pagesize page_no)) w)))
      as [Hp Hj].
    simpl in *. split; [done |]. etrans; [| exact Hj].
    rewrite <- app_assoc. by apply prefix_app_r.
Qed.

Lemma execute_periodic_tasks_disabled client python_int fuel pagesize w :
  execute_periodic_tasks client python_int fuel (Config false pagesize) w =
    _refresh_vip_status client w.
Proof.
  unfold execute_periodic_tasks, bind at 1. simpl.
  by destruct (_refresh_vip_status client w) as [[[]|e|] w1].
Qed.

Lemma execute_periodic_tasks_enabled client python_int fuel pagesize w w1 :
  _refresh_vip_status client w = (Returns tt, w1) ->
  execute_periodic_tasks client python_int fuel (Config true pagesize) w =
    _refresh_all_members_status client python_int fuel pagesize w1.
Proof.
  intros H. unfold execute_periodic_tasks, bind at 1. by rewrite H.
Qed.





(** ** The pending list over the life of a process *)


Lemma refresh_vip_status_occurrences client w id :
  let before := occurrences id (VIP_IN_PENDING_CREATE w) in
  let after :=
    occurrences id (VIP_IN_PENDING_CREATE (snd (_refresh_vip_status client w))) in
  after <= before <= after + 1 /\
  (after < before ->
   (exists row, db w !! (Vip, id) = Some row /\ row_status row = PENDING_CREATE) /\
   converged client id).
Proof.
  unfold _refresh_vip_status, bind, get_vips.
  pose proof (refresh_loop_occurrences client
                (vips_with_status [PENDING_CREATE] (db w)) w id
                (vips_with_status_NoDup _ _)) as (_ & Hle & Hlt).
  simpl in *. split; [done |]. intros Hdrop.
  destruct (Hlt Hdrop) as [Hin Hc]. split; [| done].
  apply elem_of_vips_with_status in Hin as (row & Hrow & Hst).
  exists row. split; [done |].
  by apply list_elem_of_singleton in Hst.
Qed.

Lemma execute_periodic_tasks_pending client python_int fuel cfg w :
  VIP_IN_PENDING_CREATE (snd (execute_periodic_tasks client python_int fuel cfg w)) =
    VIP_IN_PENDING_CREATE (snd (_refresh_vip_status client w)).
Proof.
  destruct cfg as [[|] pagesize].
  - destruct (_refresh_vip_status client w) as [[[]|e|] w1] eqn:H.
    + rewrite (execute_periodic_tasks_enabled _ _ _ _ _ _ H). simpl.
      apply members_status_loop_frame.
    + unfold execute_periodic_tasks, bind at 1. by rewrite H.
    + unfold execute_periodic_tasks, bind at 1. by rewrite H.
  - by rewrite execute_periodic_tasks_disabled.
Qed.




(** * Further properties of the driver *)

(** ** Configuration *)

Lemma split_not_nil sep s : split sep s ≠ [].
Proof.
  destruct s as [|c s]; simpl; [done |].
  destruct (decide (c = sep)); [done |]. by destruct (split sep s).
Qed.

Lemma split_length sep s : length (split sep s) = S (count_char sep s).
Proof.
  induction s as [|c s IH]; simpl; [done |].
  destruct (decide (c = sep)); simpl; [by rewrite IH |].
  pose proof (split_not_nil sep s).
  destruct (split sep s) as [|part parts]; [done |]. simpl in *. lia.
Qed.

Lemma split_no_separator sep s : count_char sep s = 0 -> split sep s = [s].
Proof.
  induction s as [|c s IH]; simpl; [done |].
  destruct (decide (c = sep)); [done |]. intros H. by rewrite IH.
Qed.

Lemma split_app sep a b :
  count_char sep a = 0 ->
  split sep (a +:+ String sep b) = a :: split sep b.
Proof.
  induction a as [|c a IH]; simpl.
  - intros _. by destruct (decide (sep = sep)).
  - destruct (decide (c = sep)); [done |]. intros H. by rewrite IH.
Qed.

(** X1.  [__init__] gets a pair out of [netscaler_status_collection] exactly
    when the text holds one comma; with none, or with two or more, the
    unpacking raises [ValueError]. *)
Theorem init_status_collection_one_comma status_conf :
  if decide (count_char "," status_conf = 1) then
    exists enable pagesize,
      init_status_collection status_conf = Returns (enable, pagesize)
  else init_status_collection status_conf = Raises ValueError.
Proof.
  unfold init_status_collection.
  pose proof (split_length "," status_conf) as Hlen.
  destruct (split "," status_conf) as [|a [|b [|c parts]]]; simpl in Hlen;
    destruct (decide (count_char "," status_conf = 1)); try lia; try done.
  destruct (decide (lower a = "true")); by eexists _, _.
Qed.

(** X2.  A text ["<a>,<b>"] whose parts hold no comma configures the page
    size text [b], and enables status collection exactly when [a] reads
    "true" in any mix of upper and lower case. *)
Theorem init_status_collection_parts a b :
  count_char "," a = 0 ->
  count_char "," b = 0 ->
  init_status_collection (a +:+ "," +:+ b) =
    Returns (bool_decide (lower a = "true"), b).
Proof.
  intros Ha Hb. unfold init_status_collection.
  change ("," +:+ b) with (String "," b).
  rewrite split_app, (split_no_separator _ _ Hb) by done.
  by destruct (decide (lower a = "true")) as [->|Hne];
    [| rewrite bool_decide_eq_false_2].
Qed.

Lemma init_status_collection_parts_witness :
  init_status_collection ("TRUE" +:+ "," +:+ "300") =
    Returns (bool_decide (lower "TRUE" = "true"), "300").
Proof. apply init_status_collection_parts; reflexivity. Defined.

(** ** Payloads *)

(** Rewrites the lookup of a literal key in a payload built by inserts. *)
Ltac payload_lookup :=
  repeat first
    [ rewrite lookup_insert_eq
    | rewrite lookup_insert_ne by done
    | rewrite lookup_empty ].

(** Splits a hypothesis [m !! k = Some x], for a payload [m] built by
    inserts, into one case per key of [m]. *)
Ltac payload_keys H :=
  repeat match type of H with
         | <[_ := _]> _ !! _ = Some _ =>
             apply lookup_insert_Some in H as [[<- <-]|[? H]]
         | ∅ !! _ = Some _ => by rewrite lookup_empty in H
         end.

(** X3.  The payload of a health monitor, for update and for creation,
    carries [http_method], [url_path] and [expected_codes] when the monitor
    type is HTTP or HTTPS, and none of the three for any other type. *)
Theorem healthmonitor_http_attributes hm pool_id :
  let http := [("http_method", hm_http_method hm);
               ("url_path", hm_url_path hm);
               ("expected_codes", hm_expected_codes hm)] in
  if decide (hm_type hm ∈ ["HTTP"; "HTTPS"]) then
    Forall (fun kv => _prepare_healthmonitor_for_update hm !! kv.1 = Some kv.2 /\
                      _prepare_healthmonitor_for_creation hm pool_id !! kv.1
                        = Some kv.2) http
  else
    Forall (fun kv => _prepare_healthmonitor_for_update hm !! kv.1 = None /\
                      _prepare_healthmonitor_for_creation hm pool_id !! kv.1
                        = None) http.
Proof.
  unfold _prepare_healthmonitor_for_creation, dict_update,
    _prepare_healthmonitor_for_update.
  destruct (decide (hm_type hm ∈ ["HTTP"; "HTTPS"])); simpl;
    repeat constructor; simpl; rewrite ?lookup_union; by payload_lookup.
Qed.

Lemma update_payloads_no_identity_vip v :
  _prepare_vip_for_update v !! "id" = None /\
  _prepare_vip_for_update v !! "tenant_id" = None.
Proof.
  unfold _prepare_vip_for_update.
  destruct (vip_session_persistence v); by payload_lookup.
Qed.

Lemma update_payloads_no_identity_monitor hm :
  _prepare_healthmonitor_for_update hm !! "id" = None /\
  _prepare_healthmonitor_for_update hm !! "tenant_id" = None /\
  _prepare_healthmonitor_for_update hm !! "type" = None.
Proof.
  unfold _prepare_healthmonitor_for_update.
  destruct (decide _); by payload_lookup.
Qed.

(** X4.  No update payload carries the identity of the entity: the keys
    [id] and [tenant_id] are in none of the four, so an update can change
    neither. *)
Theorem update_payloads_leave_identity_out v p m hm :
  Forall (fun payload : attrs =>
            payload !! "id" = None /\ payload !! "tenant_id" = None)
    [_prepare_vip_for_update v; _prepare_pool_for_update p;
     _prepare_member_for_update m; _prepare_healthmonitor_for_update hm].
Proof.
  repeat constructor;
    try apply update_payloads_no_identity_vip;
    try apply update_payloads_no_identity_monitor;
    unfold _prepare_pool_for_update, _prepare_member_for_update;
    by payload_lookup.
Qed.

(** X5.  Every creation payload carries the entity's [id] and [tenant_id],
    and agrees with the update payload of the same entity on every attribute
    of the latter. *)
Theorem creation_payloads_extend_update v p m hm pid :
  (_prepare_vip_for_update v ⊆ _prepare_vip_for_creation v /\
   _prepare_vip_for_creation v !! "id" = Some (vip_id v) /\
   _prepare_vip_for_creation v !! "tenant_id" = Some (vip_tenant_id v)) /\
  (_prepare_pool_for_update p ⊆ _prepare_pool_for_creation p /\
   _prepare_pool_for_creation p !! "id" = Some (pool_id p) /\
   _prepare_pool_for_creation p !! "tenant_id" = Some (pool_tenant_id p)) /\
  (_prepare_member_for_update m ⊆ _prepare_member_for_creation m /\
   _prepare_member_for_creation m !! "id" = Some (member_id m) /\
   _prepare_member_for_creation m !! "tenant_id" = Some (member_tenant_id m)) /\
  (_prepare_healthmonitor_for_update hm
     ⊆ _prepare_healthmonitor_for_creation hm pid /\
   _prepare_healthmonitor_for_creation hm pid !! "id" = Some (hm_id hm) /\
   _prepare_healthmonitor_for_creation hm pid !! "tenant_id"
     = Some (hm_tenant_id hm)).
Proof.
  unfold _prepare_vip_for_creation, _prepare_pool_for_creation,
    _prepare_member_for_creation, _prepare_healthmonitor_for_creation,
    dict_update.
  repeat split_and; try apply map_union_subseteq_l.
  - rewrite lookup_union_r by apply update_payloads_no_identity_vip.
    by payload_lookup.
  - rewrite lookup_union_r by apply update_payloads_no_identity_vip.
    by payload_lookup.
  - rewrite lookup_union_r by (unfold _prepare_pool_for_update; by payload_lookup).
    by payload_lookup.
  - rewrite lookup_union_r by (unfold _prepare_pool_for_update; by payload_lookup).
    by payload_lookup.
  - rewrite lookup_union_r
      by (unfold _prepare_member_for_update; by payload_lookup).
    by payload_lookup.
  - rewrite lookup_union_r
      by (unfold _prepare_member_for_update; by payload_lookup).
    by payload_lookup.
  - rewrite lookup_union_r by apply update_payloads_no_identity_monitor.
    by payload_lookup.
  - rewrite lookup_union_r by apply update_payloads_no_identity_monitor.
    by payload_lookup.
Qed.

(** X6.  The vip payloads forward [session_persistence] exactly when the vip
    has one: the key is absent, not empty, for a vip without it. *)
Theorem vip_session_persistence_forwarded v :
  _prepare_vip_for_update v !! "session_persistence" = vip_session_persistence v /\
  _prepare_vip_for_creation v !! "session_persistence" = vip_session_persistence v.
Proof.
  unfold _prepare_vip_for_creation, dict_update, _prepare_vip_for_update.
  rewrite lookup_union.
  destruct (vip_session_persistence v); by payload_lookup.
Qed.

(** Membership of a literal key in a literal list of keys: proved, or
    refuted in a hypothesis. *)
Ltac in_keys :=
  repeat first [ apply list_elem_of_here | apply list_elem_of_further ].

Ltac not_in_keys H :=
  repeat (apply elem_of_cons in H as [H|H]; [done |]);
  by apply elem_of_nil in H.

Lemma network_info_keys core subnet_id k x :
  _get_network_info core subnet_id !! k = Some x ->
  k = "network_id" \/ k = "network_type" \/ k = "segmentation_id" \/
  (k = "subnet_id" /\ x = subnet_id).
Proof.
  unfold _get_network_info. intros H.
  destruct (network_provider_type _), (network_provider_segmentation_id _);
    payload_keys H; auto.
Qed.

Lemma vip_creation_keys v k x :
  _prepare_vip_for_creation v !! k = Some x ->
  k ∈ ["protocol_port"; "address"; "protocol"; "tenant_id"; "id";
       "session_persistence"; "admin_state_up"; "connection_limit"; "pool_id";
       "description"; "name"].
Proof.
  unfold _prepare_vip_for_creation, dict_update, _prepare_vip_for_update.
  intros H. apply lookup_union_Some_raw in H as [H|[_ H]];
    destruct (vip_session_persistence v); payload_keys H; in_keys.
Qed.

Lemma pool_creation_keys p k x :
  _prepare_pool_for_creation p !! k = Some x ->
  (k = "subnet_id" /\ x = pool_subnet_id p) \/
  k ∈ ["protocol"; "vip_id"; "tenant_id"; "id"; "admin_state_up"; "lb_method";
       "description"; "name"].
Proof.
  unfold _prepare_pool_for_creation, dict_update, _prepare_pool_for_update.
  intros H. apply lookup_union_Some_raw in H as [H|[_ H]];
    payload_keys H; (by left) || (right; in_keys).
Qed.

(** The placement metadata of a subnet always names the subnet and its
    network, and names the provider network type and the segmentation id
    exactly when the network has them. *)
Lemma network_info_content core subnet_id :
  let info := _get_network_info core subnet_id in
  let net := get_network core (get_subnet_network_id core subnet_id) in
  info !! "subnet_id" = Some subnet_id /\
  info !! "network_id" = Some (get_subnet_network_id core subnet_id) /\
  info !! "network_type" = network_provider_type net /\
  info !! "segmentation_id" = network_provider_segmentation_id net.
Proof.
  unfold _get_network_info. simpl.
  destruct (network_provider_type _), (network_provider_segmentation_id _);
    repeat split_and; by payload_lookup.
Qed.

(** X7.  The payload that [create_vip] and [create_pool] send keeps every
    attribute prepared from the entity as it is (the placement metadata
    merged in overrides none of them with another value), and carries the
    vip's [port_id]. *)
Theorem create_payload_keeps_attributes core v p :
  (_prepare_vip_for_creation v
     ⊆ dict_update (_prepare_vip_for_creation v) (_get_vip_network_info core v) /\
   dict_update (_prepare_vip_for_creation v) (_get_vip_network_info core v)
     !! "port_id" = Some (vip_port_id v)) /\
  _prepare_pool_for_creation p
    ⊆ dict_update (_prepare_pool_for_creation p) (_get_pool_network_info core p).
Proof.
  unfold dict_update, _get_vip_network_info, _get_pool_network_info.
  repeat split_and.
  - apply map_subseteq_spec. intros k x H.
    apply lookup_union_Some_raw.
    destruct (<["port_id" := vip_port_id v]>
                (_get_network_info core (vip_subnet_id v)) !! k)
      as [y|] eqn:Hinfo; [| by right].
    exfalso. apply vip_creation_keys in H.
    apply lookup_insert_Some in Hinfo as [[<- <-]|[_ Hinfo]].
    + not_in_keys H.
    + apply network_info_keys in Hinfo as [->|[->|[->|[-> _]]]]; not_in_keys H.
  - by rewrite lookup_union_l', lookup_insert_eq
      by (rewrite lookup_insert_eq; by eexists).
  - apply map_subseteq_spec. intros k x H.
    apply lookup_union_Some_raw.
    destruct (_get_network_info core (pool_subnet_id p) !! k)
      as [y|] eqn:Hinfo; [| by right].
    left. apply pool_creation_keys in H as [[-> ->]|H].
    + by apply network_info_keys in Hinfo as [?|[?|[?|[_ ->]]]].
    + exfalso.
      apply network_info_keys in Hinfo as [->|[->|[->|[-> _]]]]; not_in_keys H.
Qed.

(** ** Lifecycle operations, one by one *)

(** Rewrites a lifecycle operation into the world it leaves. *)
Ltac lifecycle_spec :=
  rewrite ?create_vip_spec, ?create_pool_spec, ?create_member_spec,
    ?create_pool_health_monitor_spec, ?update_vip_spec, ?update_pool_spec,
    ?update_member_spec, ?update_pool_health_monitor_spec, ?delete_vip_spec,
    ?delete_pool_spec, ?delete_member_spec, ?delete_pool_health_monitor_spec.

(** X8.  Of the calls that can change something (requests to the
    controller, and writes to the plugin's tables) every lifecycle operation
    makes exactly two: one request to the controller, and after it one write
    to the tables, a status write or a record deletion.  The subnet and
    network lookups that [create_vip] and [create_pool] make on the core
    plugin before the request are reads, and are not counted. *)
Theorem lifecycle_one_request_one_store_call core client op w :
  exists e,
    since w (snd (call core client op w)) = [Remote (request_of core op); e] /\
    is_store_event e = true.
Proof.
  destruct op; simpl; lifecycle_spec; simpl;
    destruct (accepts _ _); rewrite since_app; by eexists.
Qed.

(** X9.  A lifecycle operation changes one row of the plugin's tables, the
    row of the entity it was called for (for an update, of the old entity):
    every other row of every table reads as before. *)
Theorem lifecycle_touches_one_row core client op w :
  let w' := snd (call core client op w) in
  (forall k, row_of op ≠ inl k -> db w' !! k = db w !! k) /\
  (forall k, row_of op ≠ inr k -> pool_monitors w' !! k = pool_monitors w !! k).
Proof.
  destruct op; simpl; lifecycle_spec; simpl; destruct (accepts _ _); simpl;
    split; intros k Hk; try done;
    rewrite ?lookup_insert_ne, ?lookup_delete_ne by congruence; done.
Qed.

Lemma lifecycle_touches_one_row_witness :
  let w :=
    run_steps Sample.core Sample.decimal
      [(Sample.accepting PENDING_CREATE,
        Lifecycle (CreateVip Sample.ctx (Sample.a_vip "v1")))] initial in
  let op := UpdateVip Sample.ctx (Sample.a_vip "v2") (Sample.a_vip "v3") in
  db (snd (call Sample.core Sample.failing op w)) !! (Vip, "v1") =
    db w !! (Vip, "v1").
Proof.
  apply (proj1 (lifecycle_touches_one_row Sample.core Sample.failing
     (UpdateVip Sample.ctx (Sample.a_vip "v2") (Sample.a_vip "v3"))
     (run_steps Sample.core Sample.decimal
        [(Sample.accepting PENDING_CREATE,
          Lifecycle (CreateVip Sample.ctx (Sample.a_vip "v1")))] initial))).
  done.
Defined.

(** X10.  [stats] only reads: it makes its one retrieve call and leaves the
    plugin's tables and the pending list alone.  It returns the [stats] of
    the response; a response without [stats] raises [KeyError], which the
    [except NCCException] clause does not catch. *)
Theorem stats_reads_only client ctx pool_id w :
  snd (stats client ctx pool_id w) =
    journal_add (Remote (stats_request ctx pool_id)) w /\
  (forall code s,
     client (stats_request ctx pool_id) = Some (code, StatsDoc s) ->
     fst (stats client ctx pool_id w) = Returns (Some s)) /\
  (forall code doc,
     client (stats_request ctx pool_id) = Some (code, doc) ->
     (forall s, doc ≠ StatsDoc s) ->
     fst (stats client ctx pool_id w) = Raises (KeyError "stats")).
Proof.
  rewrite stats_spec. simpl. repeat split_and.
  - done.
  - intros code s H. by rewrite H.
  - intros code doc H Hdoc. rewrite H. destruct doc; try done.
    by destruct (Hdoc stats0).
Qed.

Lemma stats_reads_only_witness :
  fst (stats (Sample.accepting ACTIVE) Sample.ctx "p1" initial) =
    Raises (KeyError "stats").
Proof.
  apply (proj2 (proj2 (stats_reads_only (Sample.accepting ACTIVE) Sample.ctx
                         "p1" initial)) 200 (VipDoc ACTIVE)).
  - reflexivity.
  - done.
Defined.

(** ** The convergence pass as a whole *)

Lemma store_pending_vips w id :
  store_pending w id <-> id ∈ vips_with_status [PENDING_CREATE] (db w).
Proof.
  rewrite elem_of_vips_with_status. unfold store_pending.
  split; intros (row & Hrow & Hst); exists row; split; try done.
  - rewrite Hst. apply list_elem_of_here.
  - by apply list_elem_of_singleton in Hst.
Qed.

(** X11.  With no vip of the store in PENDING_CREATE the convergence pass
    calls nobody and changes nothing. *)
Theorem refresh_vip_status_nothing_pending client w :
  (forall id, ~ store_pending w id) ->
  _refresh_vip_status client w = (Returns tt, w).
Proof.
  intros Hnone. unfold _refresh_vip_status, bind, get_vips.
  destruct (vips_with_status [PENDING_CREATE] (db w)) as [|id vips] eqn:Hvips;
    [done |].
  destruct (Hnone id). apply store_pending_vips. rewrite Hvips.
  apply list_elem_of_here.
Qed.

Lemma refresh_vip_status_nothing_pending_witness :
  let w :=
    run_steps Sample.core Sample.decimal
      [(Sample.failing, Lifecycle (CreateVip Sample.ctx (Sample.a_vip "v1")))]
      initial in
  _refresh_vip_status (Sample.accepting ACTIVE) w = (Returns tt, w).
Proof.
  apply refresh_vip_status_nothing_pending.
  intros id (row & Hrow & Hst). cbn [run_steps run_step call] in Hrow.
  rewrite create_vip_spec in Hrow. simpl in Hrow.
  apply lookup_insert_Some in Hrow as [[_ <-]|[_ Hrow]]; [done |].
  by rewrite lookup_empty in Hrow.
Defined.

(** X12.  A vip of the pass whose retrieve call answers with a document that
    has no [vip] entry: reading the status raises [KeyError] after the
    [try], so it leaves the pass, with nothing written and the vips after it
    not retrieved. *)
Theorem refresh_raises_on_malformed_vip client w v code doc :
  store_pending w v ->
  client (retrieve_vip_request v) = Some (code, doc) ->
  (forall s, doc ≠ VipDoc s) ->
  exists vips1 vips2,
    vips_with_status [PENDING_CREATE] (db w) = vips1 ++ v :: vips2 /\
    forall w1,
      for_each vips1 (refresh_vip client) w = (Returns tt, w1) ->
      _refresh_vip_status client w =
        (Raises (KeyError "vip"),
         journal_add (Remote (retrieve_vip_request v)) w1).
Proof.
  intros Hin%store_pending_vips Hc Hdoc.
  apply list_elem_of_split in Hin as (vips1 & vips2 & Hsplit).
  exists vips1, vips2. split; [done |]. intros w1 H1.
  unfold _refresh_vip_status, bind at 1, get_vips. rewrite Hsplit.
  rewrite for_each_app. unfold bind at 1. rewrite H1. simpl.
  unfold bind. rewrite refresh_vip_spec. simpl. rewrite Hc.
  destruct doc; try done. by destruct (Hdoc status).
Qed.

Lemma refresh_raises_on_malformed_vip_witness :
  exists vips1 vips2,
    vips_with_status [PENDING_CREATE] (db Sample.restarted) =
      vips1 ++ "v1" :: vips2 /\
    forall w1,
      for_each vips1 (refresh_vip (fun _ => Some (200, OtherDoc)))
        Sample.restarted = (Returns tt, w1) ->
      _refresh_vip_status (fun _ => Some (200, OtherDoc)) Sample.restarted =
        (Raises (KeyError "vip"),
         journal_add (Remote (retrieve_vip_request "v1")) w1).
Proof.
  apply (refresh_raises_on_malformed_vip (fun _ => Some (200, OtherDoc))
           Sample.restarted "v1" 200 OtherDoc).
  - exists (Row PENDING_CREATE None). split; [by vm_compute | done].
  - reflexivity.
  - done.
Defined.

Lemma pass_event_mono client vips1 vips2 e :
  (forall v, v ∈ vips1 -> v ∈ vips2) ->
  pass_event client vips1 e -> pass_event client vips2 e.
Proof. intros Hsub (v & Hin & H). exists v. split; [by apply Hsub | done]. Qed.

(** What one vip of the pass does to the journal and to the tables. *)
Lemma refresh_vip_effect client v w :
  let w' := snd (refresh_vip client v w) in
  pool_monitors w' = pool_monitors w /\
  (exists evs, journal w' = journal w ++ evs /\ Forall (pass_event client [v]) evs) /\
  (forall k, k ≠ (Vip, v) -> db w' !! k = db w !! k).
Proof.
  rewrite refresh_vip_spec. simpl.
  assert (pass_event client [v] (Remote (retrieve_vip_request v))) as Hcall.
  { exists v. split; [apply list_elem_of_here | by left]. }
  destruct (client (retrieve_vip_request v)) as [[code doc]|] eqn:Hc.
  - destruct doc as [s| | |];
      try (simpl; repeat split_and; [done | | done];
           eexists; split; [done |]; by repeat constructor).
    destruct (decide (s ≠ PENDING_CREATE)) as [Hs|].
    + assert (pass_event client [v] (UpdateStatus Vip v s None)) as Hwrite.
      { exists v. split; [apply list_elem_of_here |]. right. by exists code, s. }
      destruct (list_remove v (VIP_IN_PENDING_CREATE w)); simpl;
        (repeat split_and;
         [done
         | eexists; split; [done |]; by repeat constructor
         | intros k Hk; by rewrite lookup_insert_ne]).
    + simpl. repeat split_and; [done | | done].
      eexists. split; [done |]. by repeat constructor.
  - simpl. repeat split_and; [done | | done].
    eexists. split; [done |]. by repeat constructor.
Qed.

Lemma refresh_loop_effect client vips :
  forall w,
    let w' := snd (for_each vips (refresh_vip client) w) in
    pool_monitors w' = pool_monitors w /\
    (exists evs, journal w' = journal w ++ evs /\ Forall (pass_event client vips) evs) /\
    (forall k, (forall v, v ∈ vips -> k ≠ (Vip, v)) -> db w' !! k = db w !! k).
Proof.
  induction vips as [|v vips IH]; intros w; simpl.
  - repeat split_and; [done | | done]. exists []. by rewrite app_nil_r.
  - pose proof (refresh_vip_effect client v w) as (Hpm & (evs & Hj & Hevs) & Hdb).
    assert (Forall (pass_event client (v :: vips)) evs) as Hevs'.
    { eapply Forall_impl; [exact Hevs |]. intros e. apply pass_event_mono.
      intros u ->%list_elem_of_singleton. apply list_elem_of_here. }
    unfold bind.
    destruct (refresh_vip client v w) as [[[]|e|] w1]; simpl in *.
    + destruct (IH w1) as (IHpm & (evs1 & IHj & IHevs) & IHdb).
      repeat split_and.
      * congruence.
      * exists (evs ++ evs1). split; [by rewrite IHj, Hj, app_assoc |].
        apply Forall_app. split; [done |].
        eapply Forall_impl; [exact IHevs |]. intros e. apply pass_event_mono.
        intros u Hu. by apply list_elem_of_further.
      * intros k Hk. rewrite IHdb, Hdb; [done | |].
        -- apply Hk, list_elem_of_here.
        -- intros u Hu. by apply Hk, list_elem_of_further.
    + repeat split_and; [done | by exists evs |].
      intros k Hk. apply Hdb, Hk, list_elem_of_here.
    + repeat split_and; [done | by exists evs |].
      intros k Hk. apply Hdb, Hk, list_elem_of_here.
Qed.

(** X13.  Whatever the controller answers, the convergence pass only
    retrieves vips that the store holds in PENDING_CREATE and only writes,
    for such a vip, a status other than PENDING_CREATE that the controller
    reported for it; it deletes nothing, and leaves every other row of the
    tables (pools, members, monitors, other vips) as it was. *)
Theorem refresh_vip_status_effect client w :
  let w' := snd (_refresh_vip_status client w) in
  let vips := vips_with_status [PENDING_CREATE] (db w) in
  (exists evs,
     journal w' = journal w ++ evs /\ Forall (pass_event client vips) evs) /\
  (forall v, v ∈ vips <-> store_pending w v) /\
  pool_monitors w' = pool_monitors w /\
  (forall k, (forall v, store_pending w v -> k ≠ (Vip, v)) ->
             db w' !! k = db w !! k).
Proof.
  unfold _refresh_vip_status, bind, get_vips.
  pose proof (refresh_loop_effect client
                (vips_with_status [PENDING_CREATE] (db w)) w)
    as (Hpm & Hj & Hdb).
  simpl in *. repeat split_and; try done.
  - intros v. by rewrite store_pending_vips.
  - intros k Hk. apply Hdb. intros v Hv. by apply Hk, store_pending_vips.
Qed.

Lemma refresh_vip_status_effect_witness :
  db (snd (_refresh_vip_status (Sample.accepting ACTIVE) Sample.restarted))
    !! (Pool, "v1") = db Sample.restarted !! (Pool, "v1").
Proof.
  apply (proj2 (proj2 (proj2 (refresh_vip_status_effect
                                (Sample.accepting ACTIVE) Sample.restarted)))).
  done.
Defined.

(** ** The convergence pass, run again *)

Lemma refresh_vip_returns client v w w' :
  refresh_vip client v w = (Returns tt, w') ->
  (quiet client v /\ db w' = db w) \/
  (exists s, s ≠ PENDING_CREATE /\ db w' = <[(Vip, v) := Row s None]> (db w)).
Proof.
  rewrite refresh_vip_spec. simpl.
  destruct (client (retrieve_vip_request v)) as [[code doc]|] eqn:Hc.
  - destruct doc as [s| | |]; try done.
    destruct (decide (s ≠ PENDING_CREATE)) as [Hs|Hs].
    + destruct (list_remove v (VIP_IN_PENDING_CREATE w)); [| done].
      intros [= <-]. right. by exists s.
    + intros [= <-]. left. split; [| done]. right. exists code.
      destruct (decide (s = PENDING_CREATE)) as [->|]; [done | by destruct Hs].
  - intros [= <-]. left. split; [by left | done].
Qed.

Lemma refresh_loop_still_pending client vips :
  forall w w1,
    for_each vips (refresh_vip client) w = (Returns tt, w1) ->
    forall u, store_pending w1 u ->
              store_pending w u /\ (u ∈ vips -> quiet client u).
Proof.
  induction vips as [|v vips IH]; intros w w1 H u Hu.
  - injection H as <-. split; [done |]. by intros ?%elem_of_nil.
  - simpl in H. unfold bind in H.
    destruct (refresh_vip client v w) as [[[]|e|] w0] eqn:Hstep; try done.
    destruct (IH _ _ H u Hu) as [Hu0 Hq].
    apply refresh_vip_returns in Hstep as [[Hquiet Hdb]|(s & Hs & Hdb)].
    + split.
      * unfold store_pending in *. by rewrite <- Hdb.
      * intros [->|Hin]%elem_of_cons; [done | by apply Hq].
    + assert (u ≠ v) as Hne.
      { intros ->. destruct Hu0 as (row & Hrow & Hst).
        rewrite Hdb, lookup_insert_eq in Hrow. injection Hrow as <-. done. }
      split.
      * destruct Hu0 as (row & Hrow & Hst). exists row. split; [| done].
        rewrite Hdb, lookup_insert_ne in Hrow by congruence. done.
      * intros [->|Hin]%elem_of_cons; [done | by apply Hq].
Qed.

Lemma for_each_quiet client vips :
  forall w,
    Forall (quiet client) vips ->
    for_each vips (refresh_vip client) w =
      (Returns tt,
       World (db w) (pool_monitors w) (VIP_IN_PENDING_CREATE w)
         (journal w ++ map (fun v => Remote (retrieve_vip_request v)) vips)).
Proof.
  induction vips as [|v vips IH]; intros w Hq; simpl.
  - destruct w. simpl. by rewrite app_nil_r.
  - apply Forall_cons in Hq as [Hv Hq]. unfold bind.
    rewrite refresh_vip_spec. simpl.
    destruct Hv as [Hc|[code Hc]]; rewrite Hc.
    + rewrite IH by done. simpl. by rewrite <- app_assoc.
    + destruct (decide (PENDING_CREATE ≠ PENDING_CREATE)); [done |].
      rewrite IH by done. simpl. by rewrite <- app_assoc.
Qed.

(** X14.  The convergence pass is idempotent against an unchanged
    controller: after a pass that returned, a second pass with the same
    answers returns too, writes nothing and removes nothing; it only
    repeats the retrieve calls of the vips still in PENDING_CREATE. *)
Theorem refresh_vip_status_twice client w w1 :
  _refresh_vip_status client w = (Returns tt, w1) ->
  _refresh_vip_status client w1 =
    (Returns tt,
     World (db w1) (pool_monitors w1) (VIP_IN_PENDING_CREATE w1)
       (journal w1 ++
          map (fun v => Remote (retrieve_vip_request v))
            (vips_with_status [PENDING_CREATE] (db w1)))).
Proof.
  intros H. unfold _refresh_vip_status, bind, get_vips in *.
  apply for_each_quiet. apply Forall_forall. intros u Hu.
  apply store_pending_vips in Hu.
  destruct (refresh_loop_still_pending _ _ _ _ H u Hu) as [Hw Hq].
  by apply Hq, store_pending_vips.
Qed.

Lemma refresh_vip_status_twice_witness :
  let w :=
    run_steps Sample.core Sample.decimal
      [(Sample.accepting PENDING_CREATE,
        Lifecycle (CreateVip Sample.ctx (Sample.a_vip "v1")));
       (Sample.accepting PENDING_CREATE,
        Lifecycle (CreateVip Sample.ctx (Sample.a_vip "v2")))] initial in
  let client := Sample.flaky "v1" ACTIVE in
  let w1 := snd (_refresh_vip_status client w) in
  _refresh_vip_status client w1 =
    (Returns tt,
     World (db w1) (pool_monitors w1) (VIP_IN_PENDING_CREATE w1)
       (journal w1 ++
          map (fun v => Remote (retrieve_vip_request v))
            (vips_with_status [PENDING_CREATE] (db w1)))).
Proof.
  apply (refresh_vip_status_twice (Sample.flaky "v1" ACTIVE)
     (run_steps Sample.core Sample.decimal
        [(Sample.accepting PENDING_CREATE,
          Lifecycle (CreateVip Sample.ctx (Sample.a_vip "v1")));
         (Sample.accepting PENDING_CREATE,
          Lifecycle (CreateVip Sample.ctx (Sample.a_vip "v2")))] initial)).
  by vm_compute.
Defined.

(** ** The member status sweep, for every controller *)

Lemma fold_left_member_row_other entries :
  forall rows k,
    (forall entry, entry ∈ entries -> k ≠ (Member, entry_id entry)) ->
    fold_left member_row entries rows !! k = rows !! k.
Proof.
  induction entries as [|e entries IH]; intros rows k Hk; simpl; [done |].
  rewrite IH by (intros entry Hin; by apply Hk, list_elem_of_further).
  unfold member_row. apply lookup_insert_ne.
  intros Heq. by apply (Hk e (list_elem_of_here _ _)).
Qed.

Lemma swept_frame entries w m id :
  m ≠ Member -> db (swept entries w) !! (m, id) = db w !! (m, id).
Proof.
  intros Hm. unfold swept. simpl. apply fold_left_member_row_other.
  intros entry _. congruence.
Qed.

Lemma members_status_loop_members_only client python_int pagesize fuel :
  forall page_no w,
    let w' := snd (members_status_loop client python_int pagesize fuel page_no w) in
    pool_monitors w' = pool_monitors w /\
    (forall m id, m ≠ Member -> db w' !! (m, id) = db w !! (m, id)).
Proof.
  induction fuel as [|fuel IH]; intros page_no w; [done |].
  rewrite members_status_loop_turn. simpl.
  destruct (client _) as [[code doc]|]; [| done].
  destruct doc as [s|st|page|]; try done.
  assert (forall m id, m ≠ Member ->
            fold_left member_row (page_entries page) (db w) !! (m, id) =
              db w !! (m, id)) as Hpage.
  { intros m id Hm.
    by rewrite fold_left_member_row_other by (intros; congruence). }
  destruct (python_int pagesize) as [size|]; [| by split].
  destruct (decide _).
  - simpl. split; [done |]. intros m id Hm.
    by rewrite fold_left_member_row_other by (intros; congruence).
  - destruct (IH (page_no + 1)
                (swept (page_entries page)
                   (journal_add
                      (Remote (retrieve_page_request pagesize page_no)) w)))
      as [Hpm Hdb].
    simpl in *. split; [done |]. intros m id Hm. rewrite Hdb by done.
    by rewrite fold_left_member_row_other by (intros; congruence).
Qed.

(** X15.  Whatever the controller answers and however long it runs, the
    member status sweep changes member rows only: the rows of vips and
    pools, the pool monitor table and the pending list are as before. *)
Theorem sweep_touches_members_only client python_int fuel pagesize w :
  let w' := snd (_refresh_all_members_status client python_int fuel pagesize w) in
  pool_monitors w' = pool_monitors w /\
  VIP_IN_PENDING_CREATE w' = VIP_IN_PENDING_CREATE w /\
  (forall m id, m ≠ Member -> db w' !! (m, id) = db w !! (m, id)).
Proof.
  unfold _refresh_all_members_status.
  pose proof (members_status_loop_members_only client python_int pagesize
                fuel 1 w) as [Hpm Hdb].
  pose proof (members_status_loop_frame client python_int pagesize fuel 1 w)
    as [Hp _].
  by repeat split_and.
Qed.

Lemma sweep_touches_members_only_witness :
  db (snd (_refresh_all_members_status
             (Sample.feed "2" [Some [Sample.g1; Sample.g2]; Some [Sample.g3]])
             Sample.decimal 5 "2" Sample.restarted)) !! (Vip, "v1") =
    db Sample.restarted !! (Vip, "v1").
Proof.
  apply (proj2 (proj2 (sweep_touches_members_only
     (Sample.feed "2" [Some [Sample.g1; Sample.g2]; Some [Sample.g3]])
     Sample.decimal 5 "2" Sample.restarted))).
  done.
Defined.

Lemma members_status_loop_endless client python_int pagesize size :
  python_int pagesize = Some size ->
  (forall n, 1 <= n ->
     exists code page,
       client (retrieve_page_request pagesize n) = Some (code, StatusesDoc page) /\
       (size <= Z.of_nat (length page))%Z) ->
  forall fuel page_no w,
    1 <= page_no ->
    fst (members_status_loop client python_int pagesize fuel page_no w) = Diverges.
Proof.
  intros Hint Hfull.
  induction fuel as [|fuel IH]; intros page_no w Hpos; [done |].
  destruct (Hfull page_no Hpos) as (code & page & Hc & Hlen).
  rewrite (members_status_loop_page _ _ _ _ _ _ _ _ Hc), Hint. simpl.
  destruct (decide _); [lia |]. apply IH. lia.
Qed.

(** X16.  The sweep stops on a short page only: against a controller that
    answers every page number with a page of at least the page size of
    status groups (the number [int] reads in the configured text), no number
    of turns lets it return or raise. *)
Theorem sweep_never_stops_on_full_pages client python_int pagesize size fuel w :
  python_int pagesize = Some size ->
  (forall n, 1 <= n ->
     exists code page,
       client (retrieve_page_request pagesize n) = Some (code, StatusesDoc page) /\
       (size <= Z.of_nat (length page))%Z) ->
  fst (_refresh_all_members_status client python_int fuel pagesize w) = Diverges.
Proof.
  intros Hint Hfull. unfold _refresh_all_members_status.
  by apply (members_status_loop_endless _ _ _ size).
Qed.

Lemma sweep_never_stops_on_full_pages_witness :
  fst (_refresh_all_members_status endless_feed Sample.decimal 7 "1" initial)
    = Diverges.
Proof.
  apply (sweep_never_stops_on_full_pages endless_feed Sample.decimal "1" 1).
  - reflexivity.
  - intros n _. exists 200, [Sample.g1]. split; [reflexivity | simpl; lia].
Defined.

Lemma members_status_loop_no_return client python_int pagesize fuel :
  (forall size, python_int pagesize = Some size -> (size <= 0)%Z) ->
  forall page_no w,
    fst (members_status_loop client python_int pagesize fuel page_no w) ≠ Returns tt.
Proof.
  intros Hsize. induction fuel as [|fuel IH]; intros page_no w; [done |].
  rewrite members_status_loop_turn. simpl.
  destruct (client _) as [[code doc]|]; [| done].
  destruct doc as [s|st|page|]; try done.
  destruct (python_int pagesize) as [size|]; [| done].
  specialize (Hsize size eq_refl).
  destruct (decide _); [lia | apply IH].
Qed.

(** X17.  With a page size that [int] reads as zero or less no page is
    short, an empty page included: the sweep never returns; it ends only by
    an exception (as it does, by [ValueError], when [int] refuses the
    text). *)
Theorem sweep_needs_positive_page_size client python_int fuel pagesize w :
  (forall size, python_int pagesize = Some size -> (size <= 0)%Z) ->
  fst (_refresh_all_members_status client python_int fuel pagesize w) ≠ Returns tt.
Proof.
  intros Hsize. unfold _refresh_all_members_status.
  by apply members_status_loop_no_return.
Qed.

Lemma sweep_needs_positive_page_size_witness :
  fst (_refresh_all_members_status (fun _ => Some (200, StatusesDoc []))
         Sample.decimal 9 "0" initial) ≠ Returns tt.
Proof.
  apply sweep_needs_positive_page_size.
  intros size H. vm_compute in H. injection H as <-. lia.
Defined.

Lemma fold_left_member_row_last l1 e l2 rows :
  entry_id e ∉ map entry_id l2 ->
  fold_left member_row (l1 ++ e :: l2) rows !! (Member, entry_id e) =
    Some (Row (entry_status e) (Some (entry_status_description e))).
Proof.
  intros Hlast. rewrite fold_left_app. simpl.
  rewrite fold_left_member_row_other.
  - unfold member_row. by rewrite lookup_insert_eq.
  - intros entry Hin [= Heq]. apply Hlast. rewrite Heq.
    apply list_elem_of_In, in_map, list_elem_of_In, Hin.
Qed.

(** X18.  When the feed lists a member more than once, the sweep leaves the
    status and description of its last entry in the store: an entry that no
    later entry of the same member follows is what the store shows. *)
Theorem sweep_last_entry_wins client python_int pagesize pages last fuel w l1 e l2 :
  serves client pagesize 1 (pages ++ [last]) ->
  Forall (full python_int pagesize) pages ->
  short python_int pagesize last ->
  length pages < fuel ->
  concat (map page_entries (pages ++ [last])) = l1 ++ e :: l2 ->
  entry_id e ∉ map entry_id l2 ->
  db (snd (_refresh_all_members_status client python_int fuel pagesize w))
    !! (Member, entry_id e) =
    Some (Row (entry_status e) (Some (entry_status_description e))).
Proof.
  intros Hserves Hfull Hshort Hfuel Hsplit Hlast.
  rewrite (sweep_spec _ _ _ _ _ _ _ Hserves Hfull Hshort Hfuel). simpl.
  rewrite swept_pages_db, Hsplit. by apply fold_left_member_row_last.
Qed.

Lemma sweep_last_entry_wins_witness :
  let again := StatusGroup [MemberEntry "m1" "DOWN" "second report"] in
  db (snd (_refresh_all_members_status
             (Sample.feed "2" [Some [Sample.g1; Sample.g2]; Some [again]])
             Sample.decimal 5 "2" initial)) !! (Member, "m1") =
    Some (Row "DOWN" (Some "second report")).
Proof.
  apply (sweep_last_entry_wins
           (Sample.feed "2" [Some [Sample.g1; Sample.g2];
                             Some [StatusGroup
                                     [MemberEntry "m1" "DOWN" "second report"]]])
           Sample.decimal "2" [[Sample.g1; Sample.g2]]
           [StatusGroup [MemberEntry "m1" "DOWN" "second report"]] 5 initial
           [MemberEntry "m1" "UP" "ok"; MemberEntry "m2" "DOWN" "probe failed";
            MemberEntry "m3" "UP" "ok"]
           (MemberEntry "m1" "DOWN" "second report") []).
  - intros k page Hk. destruct k as [|[|k]]; simpl in Hk; [| | done];
      injection Hk as <-; exists 200; reflexivity.
  - by repeat constructor.
  - by vm_compute.
  - simpl. lia.
  - reflexivity.
  - apply not_elem_of_nil.
Defined.

(** X19.  A page whose body has no [statuses] entry raises [KeyError] out
    of the sweep: the full pages before it stay written, nothing of the page
    is, and no later page is requested. *)
Theorem sweep_raises_on_malformed_page client python_int pagesize pages fuel w code doc :
  serves client pagesize 1 pages ->
  Forall (full python_int pagesize) pages ->
  client (retrieve_page_request pagesize (1 + length pages)) = Some (code, doc) ->
  (forall statuses, doc ≠ StatusesDoc statuses) ->
  length pages < fuel ->
  _refresh_all_members_status client python_int fuel pagesize w =
    (Raises (KeyError "statuses"),
     journal_add (Remote (retrieve_page_request pagesize (1 + length pages)))
       (swept_pages pagesize 1 pages w)).
Proof.
  intros Hserves Hfull Hc Hdoc Hfuel. unfold _refresh_all_members_status.
  replace fuel with (length pages + S (fuel - S (length pages))) by lia.
  rewrite members_status_loop_full_pages by done.
  rewrite members_status_loop_turn. cbv zeta. rewrite Hc.
  destruct doc; try done. by destruct (Hdoc statuses).
Qed.

Lemma sweep_raises_on_malformed_page_witness :
  _refresh_all_members_status malformed_second_page Sample.decimal 3 "1" initial =
    (Raises (KeyError "statuses"),
     journal_add (Remote (retrieve_page_request "1" 2))
       (swept_pages "1" 1 [[Sample.g1]] initial)).
Proof.
  apply (sweep_raises_on_malformed_page malformed_second_page Sample.decimal
           "1" [[Sample.g1]] 3 initial 200 OtherDoc).
  - intros k page Hk. destruct k as [|k]; simpl in Hk; [| done].
    injection Hk as <-. exists 200. reflexivity.
  - by repeat constructor.
  - reflexivity.
  - done.
  - simpl. lia.
Defined.

(** ** Resource paths *)

Lemma string_length_app s1 s2 :
  String.length (s1 +:+ s2) = String.length s1 + String.length s2.
Proof. induction s1 as [|c s1 IH]; simpl; [done | by rewrite IH]. Qed.

Lemma string_app_inv_tail s1 s2 t : s1 +:+ t = s2 +:+ t -> s1 = s2.
Proof.
  revert s2. induction s1 as [|c s1 IH]; intros [|c2 s2] H; simpl in H.
  - done.
  - apply (f_equal String.length) in H.
    rewrite !string_length_app in H. simpl in H. lia.
  - apply (f_equal String.length) in H.
    rewrite !string_length_app in H. simpl in H. lia.
  - injection H as -> H. by rewrite (IH _ H).
Qed.

Lemma path3_inj a b c1 c2 : path3 a b c1 = path3 a b c2 -> c1 = c2.
Proof.
  unfold path3. intros H.
  apply (inj (String.app a)) in H. simpl in H. injection H as H.
  apply (inj (String.app b)) in H. simpl in H. by injection H.
Qed.

Lemma retrieve_vip_request_inj v1 v2 :
  retrieve_vip_request v1 = retrieve_vip_request v2 -> v1 = v2.
Proof.
  unfold retrieve_vip_request. intros H.
  assert (path3 RESOURCE_PREFIX VIPS_RESOURCE v1 =
          path3 RESOURCE_PREFIX VIPS_RESOURCE v2) as Hp by congruence.
  by apply path3_inj in Hp.
Qed.

Lemma member_status_path_inj pagesize n1 n2 :
  member_status_path n1 pagesize = member_status_path n2 pagesize -> n1 = n2.
Proof.
  intros H.
  change ("oca/v1/memberstatus?page=" +:+ pretty n1 +:+ ("&size=" +:+ pagesize) =
          "oca/v1/memberstatus?page=" +:+ pretty n2 +:+ ("&size=" +:+ pagesize))
    in H.
  apply (inj (String.app _)) in H.
  apply string_app_inv_tail in H. by apply (inj pretty) in H.
Qed.

(** X20.  Paths do not collide within a pass: two vips with different ids
    are retrieved under different paths, and two pages of the member status
    feed with different numbers are requested under different paths,
    whatever text is configured as the page size. *)
Theorem retrieve_paths_injective :
  (forall id1 id2,
     id1 ≠ id2 ->
     path3 RESOURCE_PREFIX VIPS_RESOURCE id1 ≠ path3 RESOURCE_PREFIX VIPS_RESOURCE id2) /\
  (forall pagesize n1 n2,
     n1 ≠ n2 ->
     member_status_path n1 pagesize ≠ member_status_path n2 pagesize).
Proof.
  split.
  - intros id1 id2 Hne H. by apply Hne, (path3_inj _ _ _ _ H).
  - intros pagesize n1 n2 Hne H. by apply Hne, (member_status_path_inj _ _ _ H).
Qed.

Lemma retrieve_paths_injective_witness :
  path3 RESOURCE_PREFIX VIPS_RESOURCE "v1" ≠ path3 RESOURCE_PREFIX VIPS_RESOURCE "v2" /\
  member_status_path 1 " 300" ≠ member_status_path 2 " 300".
Proof.
  split.
  - apply (proj1 retrieve_paths_injective "v1" "v2"). done.
  - apply (proj2 retrieve_paths_injective " 300" 1 2). lia.
Defined.

(** ** Operations in sequence *)

Lemma vips_with_status_single statuses rows v :
  (forall id, id ∈ vips_with_status statuses rows <-> id = v) ->
  vips_with_status statuses rows = [v].
Proof.
  intros H. pose proof (vips_with_status_NoDup statuses rows) as Hnd.
  destruct (vips_with_status statuses rows) as [|x l].
  - by destruct (not_elem_of_nil v); apply H.
  - assert (x = v) as -> by apply H, list_elem_of_here.
    destruct l as [|y l]; [done |].
    assert (y = v) as -> by apply H, list_elem_of_further, list_elem_of_here.
    apply NoDup_cons in Hnd as [Hnot _]. destruct Hnot. apply list_elem_of_here.
Qed.

Lemma list_remove_app_last l v : v ∉ l -> list_remove v (l ++ [v]) = Some l.
Proof.
  induction l as [|y l IH]; simpl.
  - intros _. by destruct (decide (v = v)).
  - rewrite not_elem_of_cons. intros [Hne Hnot].
    destruct (decide (y = v)); [congruence |]. by rewrite IH.
Qed.

(** X21.  Create, then converge: from a store with no vip in
    PENDING_CREATE and a pending list without the vip's id, an accepted
    [create_vip] followed by a pass in which the controller reports another
    status leaves the store with that status for the vip, and the pending
    list exactly as it was before the create. *)
Theorem create_then_converge core creating polled ctx v w code s :
  (forall id, ~ store_pending w id) ->
  vip_id v ∉ VIP_IN_PENDING_CREATE w ->
  accepts creating (create_vip_request core ctx v) = true ->
  polled (retrieve_vip_request (vip_id v)) = Some (code, VipDoc s) ->
  s ≠ PENDING_CREATE ->
  _refresh_vip_status polled (snd (create_vip core creating ctx v w)) =
    (Returns tt,
     World (<[(Vip, vip_id v) := Row s None]> (db w)) (pool_monitors w)
       (VIP_IN_PENDING_CREATE w)
       (journal w ++ [Remote (create_vip_request core ctx v);
                      UpdateStatus Vip (vip_id v) PENDING_CREATE None;
                      Remote (retrieve_vip_request (vip_id v));
                      UpdateStatus Vip (vip_id v) s None])).
Proof.
  intros Hnone Hnot Hacc Hc Hs. rewrite create_vip_spec, Hacc. simpl.
  unfold _refresh_vip_status, bind at 1, get_vips. simpl.
  rewrite (vips_with_status_single _ _ (vip_id v)).
  - simpl. unfold bind. rewrite refresh_vip_spec. simpl. rewrite Hc.
    destruct (decide (s ≠ PENDING_CREATE)); [| done].
    rewrite list_remove_app_last by done. simpl.
    by rewrite insert_insert_eq, <- app_assoc.
  - intros id. rewrite elem_of_vips_with_status. split.
    + intros (row & Hrow & Hst).
      destruct (decide (id = vip_id v)) as [->|Hne]; [done |].
      rewrite lookup_insert_ne in Hrow by congruence.
      destruct (Hnone id). exists row. split; [done |].
      by apply list_elem_of_singleton in Hst.
    + intros ->. exists (Row PENDING_CREATE None).
      rewrite lookup_insert_eq. split; [done | apply list_elem_of_here].
Qed.

Lemma create_then_converge_witness :
  _refresh_vip_status (Sample.accepting ACTIVE)
    (snd (create_vip Sample.core (Sample.accepting PENDING_CREATE) Sample.ctx
            (Sample.a_vip "v1") initial)) =
    (Returns tt,
     World (<[(Vip, "v1") := Row ACTIVE None]> (db initial))
       (pool_monitors initial) (VIP_IN_PENDING_CREATE initial)
       (journal initial ++
          [Remote (create_vip_request Sample.core Sample.ctx (Sample.a_vip "v1"));
           UpdateStatus Vip "v1" PENDING_CREATE None;
           Remote (retrieve_vip_request "v1");
           UpdateStatus Vip "v1" ACTIVE None])).
Proof.
  apply (create_then_converge Sample.core (Sample.accepting PENDING_CREATE)
           (Sample.accepting ACTIVE) Sample.ctx (Sample.a_vip "v1") initial
           200 ACTIVE).
  - intros id (row & Hrow & _). simpl in Hrow. by rewrite lookup_empty in Hrow.
  - apply not_elem_of_nil.
  - reflexivity.
  - reflexivity.
  - done.
Defined.

Lemma pass_never_retrieves_others client w v :
  ~ store_pending w v ->
  Remote (retrieve_vip_request v) ∉ since w (snd (_refresh_vip_status client w)).
Proof.
  intros Hnot Hin. unfold _refresh_vip_status, bind, get_vips in Hin.
  pose proof (refresh_loop_effect client
                (vips_with_status [PENDING_CREATE] (db w)) w)
    as (_ & (evs & Hj & Hevs) & _).
  simpl in *. unfold since in Hin. rewrite Hj, drop_app_length in Hin.
  rewrite Forall_forall in Hevs.
  destruct (Hevs _ Hin) as (u & Hu & [Heq|(code & s & _ & _ & Heq)]);
    [| done].
  assert (retrieve_vip_request v = retrieve_vip_request u) as Hr by congruence.
  apply retrieve_vip_request_inj in Hr as <-.
  by apply Hnot, store_pending_vips.
Qed.

(** X22.  ERROR is not retried: a vip whose [create_vip] failed is in ERROR,
    not in PENDING_CREATE, and a convergence pass does not retrieve a vip
    that the store does not hold in PENDING_CREATE. *)
Theorem failed_create_is_not_polled core creating polled ctx v w :
  accepts creating (create_vip_request core ctx v) = false ->
  let w1 := snd (create_vip core creating ctx v w) in
  ~ store_pending w1 (vip_id v) /\
  Remote (retrieve_vip_request (vip_id v))
    ∉ since w1 (snd (_refresh_vip_status polled w1)).
Proof.
  intros Hfail. simpl.
  assert (~ store_pending (snd (create_vip core creating ctx v w)) (vip_id v))
    as Hnot.
  { rewrite create_vip_spec, Hfail. simpl. intros (row & Hrow & Hst).
    simpl in Hrow. rewrite lookup_insert_eq in Hrow. injection Hrow as <-. done. }
  split; [done | by apply pass_never_retrieves_others].
Qed.

Lemma failed_create_is_not_polled_witness :
  let w1 :=
    snd (create_vip Sample.core Sample.failing Sample.ctx (Sample.a_vip "v1")
           Sample.restarted) in
  ~ store_pending w1 "v1" /\
  Remote (retrieve_vip_request "v1")
    ∉ since w1 (snd (_refresh_vip_status (Sample.accepting ACTIVE) w1)).
Proof.
  apply (failed_create_is_not_polled Sample.core Sample.failing
           (Sample.accepting ACTIVE) Sample.ctx (Sample.a_vip "v1")
           Sample.restarted).
  reflexivity.
Defined.

Lemma firing_keeps_unpolled python_int polled fuel cfg w id :
  ~ store_pending w id ->
  occurrences id
    (VIP_IN_PENDING_CREATE (snd (execute_periodic_tasks polled python_int fuel cfg w))) =
    occurrences id (VIP_IN_PENDING_CREATE w).
Proof.
  intros Hnot. rewrite execute_periodic_tasks_pending.
  pose proof (refresh_vip_status_occurrences polled w id) as [Hle Hlt].
  simpl in Hle, Hlt.
  destruct (decide (occurrences id
                      (VIP_IN_PENDING_CREATE (snd (_refresh_vip_status polled w)))
                    < occurrences id (VIP_IN_PENDING_CREATE w)))
    as [Hdrop|Hsame]; [| lia].
  destruct Hnot. by apply Hlt.
Qed.

Lemma create_then_delete core python_int creating deleting ctx v w :
  accepts creating (create_vip_request core ctx v) = true ->
  accepts deleting
    (delete_request ctx (path3 RESOURCE_PREFIX VIPS_RESOURCE (vip_id v))) = true ->
  let w2 :=
    run_steps core python_int [(creating, Lifecycle (CreateVip ctx v));
                    (deleting, Lifecycle (DeleteVip ctx v))] w in
  db w2 !! (Vip, vip_id v) = None /\
  VIP_IN_PENDING_CREATE w2 = VIP_IN_PENDING_CREATE w ++ [vip_id v].
Proof.
  intros Hcreate Hdelete. cbn [run_steps run_step call].
  rewrite create_vip_spec, Hcreate. cbn [snd].
  rewrite delete_vip_spec. cbn zeta. cbn [snd]. rewrite Hdelete. simpl.
  split; [apply lookup_delete_eq | done].
Qed.

(** X23.  A deleted vip stays in the pending list: after an accepted
    [create_vip] and an accepted [delete_vip] of the same vip the store has
    no record of it, its id is still in the pending list, and no firing of
    the periodic task removes it. *)
Theorem deleted_vip_stays_pending core python_int creating deleting polled ctx v w fuel cfg :
  accepts creating (create_vip_request core ctx v) = true ->
  accepts deleting
    (delete_request ctx (path3 RESOURCE_PREFIX VIPS_RESOURCE (vip_id v))) = true ->
  let w2 :=
    run_steps core python_int [(creating, Lifecycle (CreateVip ctx v));
                    (deleting, Lifecycle (DeleteVip ctx v))] w in
  let w3 := snd (execute_periodic_tasks polled python_int fuel cfg w2) in
  db w2 !! (Vip, vip_id v) = None /\
  vip_id v ∈ VIP_IN_PENDING_CREATE w2 /\
  occurrences (vip_id v) (VIP_IN_PENDING_CREATE w3) =
    occurrences (vip_id v) (VIP_IN_PENDING_CREATE w2).
Proof.
  intros Hcreate Hdelete w2 w3.
  destruct (create_then_delete core python_int creating deleting ctx v w
              Hcreate Hdelete) as [Hgone Hpending].
  fold w2 in Hgone, Hpending. repeat split_and.
  - done.
  - rewrite Hpending. apply elem_of_app. right. apply list_elem_of_here.
  - apply firing_keeps_unpolled. intros (row & Hrow & _). congruence.
Qed.

Lemma deleted_vip_stays_pending_witness :
  let w2 :=
    run_steps Sample.core Sample.decimal
      [(Sample.accepting PENDING_CREATE,
        Lifecycle (CreateVip Sample.ctx (Sample.a_vip "v1")));
       (Sample.accepting PENDING_CREATE,
        Lifecycle (DeleteVip Sample.ctx (Sample.a_vip "v1")))] initial in
  let w3 :=
    snd (execute_periodic_tasks (Sample.accepting ACTIVE) Sample.decimal 5
           (Config false "2") w2) in
  db w2 !! (Vip, "v1") = None /\
  "v1" ∈ VIP_IN_PENDING_CREATE w2 /\
  occurrences "v1" (VIP_IN_PENDING_CREATE w3) =
    occurrences "v1" (VIP_IN_PENDING_CREATE w2).
Proof.
  apply (deleted_vip_stays_pending Sample.core Sample.decimal
           (Sample.accepting PENDING_CREATE)
           (Sample.accepting PENDING_CREATE) (Sample.accepting ACTIVE)
           Sample.ctx (Sample.a_vip "v1") initial 5 (Config false "2"));
    reflexivity.
Defined.

(** X24.  An exception of the convergence pass is the exception of the
    firing: [execute_periodic_tasks] does not catch it, and the member
    status sweep of that firing is not run, enabled or not. *)
Theorem failed_pass_starves_the_sweep client python_int fuel cfg w e :
  fst (_refresh_vip_status client w) = Raises e ->
  execute_periodic_tasks client python_int fuel cfg w = _refresh_vip_status client w.
Proof.
  intros H. unfold execute_periodic_tasks, bind at 1.
  destruct (_refresh_vip_status client w) as [[[]|e'|] w1]; done.
Qed.

Lemma failed_pass_starves_the_sweep_witness :
  execute_periodic_tasks (Sample.accepting ACTIVE) Sample.decimal 5
    (Config true "2") Sample.restarted =
    _refresh_vip_status (Sample.accepting ACTIVE) Sample.restarted.
Proof.
  apply (failed_pass_starves_the_sweep (Sample.accepting ACTIVE) Sample.decimal
           5 (Config true "2") Sample.restarted ValueError).
  by vm_compute.
Defined.

(** ** The configured page size, as text *)

(** The request path carries the configured text as it is: a blank after the
    comma of the setting is part of the path. *)
Example member_status_path_keeps_text :
  member_status_path 1 " 300" = "oca/v1/memberstatus?page=1&size= 300".
Proof. reflexivity. Qed.

(** X25.  A page size text that [int] refuses does not stop the sweep before
    its first request: page 1 is requested with the text as it is, the
    entries of the page are written, and only then does [int] raise
    [ValueError], which leaves the sweep. *)
Theorem sweep_raises_on_unreadable_page_size client python_int pagesize fuel w
    code page :
  python_int pagesize = None ->
  client (retrieve_page_request pagesize 1) = Some (code, StatusesDoc page) ->
  _refresh_all_members_status client python_int (S fuel) pagesize w =
    (Raises ValueError,
     swept (page_entries page)
       (journal_add (Remote (retrieve_page_request pagesize 1)) w)).
Proof.
  intros Hint Hc. unfold _refresh_all_members_status.
  by rewrite (members_status_loop_page _ _ _ _ _ _ _ _ Hc), Hint.
Qed.

Lemma sweep_raises_on_unreadable_page_size_witness :
  _refresh_all_members_status (Sample.feed "2.0" [Some [Sample.g1]])
    Sample.decimal 4 "2.0" initial =
    (Raises ValueError,
     swept (page_entries [Sample.g1])
       (journal_add (Remote (retrieve_page_request "2.0" 1)) initial)).
Proof.
  apply (sweep_raises_on_unreadable_page_size
           (Sample.feed "2.0" [Some [Sample.g1]]) Sample.decimal "2.0" 3 initial
           200 [Sample.g1]); reflexivity.
Defined.
